(** * Flight instructor scheduling: the optimisation model of streamlit_app.py

    A shallow embedding of [create_optimization_model],
    [solve_and_display_results] and of the "Run Optimization" block of
    [streamlit_app.py], together with the part of PuLP the program uses
    (binary variables, sums of variables, [<=] and [==] constraints, a
    maximisation objective).

    Conventions.
    - Python integers are [Z]; positions in a list ([range(len(l))]) are [nat].
    - The dictionary [x] of decision variables is a [gmap] keyed by the pair
      [(i, j)].
    - A variable is identified by the two numbers interpolated in its name
      [assign_instructor_{i}_to_student_{j}].
    - [model.solve(pulp.PULP_CBC_CMD(msg=False))] is an external solver.  Its
      effect, storing a value in every variable, is a valuation [sol]; the
      solver's contract (status Optimal) is the relation [LpStatusOptimal].
    - Percentages, floats in Python, are exact rationals [Q]. *)

From Stdlib Require Import ZArith QArith Lia Classical_Prop.
From stdpp Require Import base list gmap strings pretty sorting.

Local Open Scope Z_scope.

(** ** Outcomes of Python calls *)

Inductive outcome (A : Type) : Type :=
  | Returns (a : A)
  | Raises (exception : string).
Arguments Returns {A} a.
Arguments Raises {A} exception.

(** An exception raised by a statement ends the block it is in. *)
Global Instance outcome_bind : MBind outcome := λ A B k c,
  match c with
  | Returns a => k a
  | Raises e => Raises e
  end.
Global Instance outcome_ret : MRet outcome := λ A a, Returns a.

(** [for a in l: st = body(st, a)] *)
Fixpoint for_each {A St} (body : St → A → outcome St) (st : St) (l : list A)
    : outcome St :=
  match l with
  | [] => Returns st
  | a :: l' => st' ← body st a; for_each body st' l'
  end.

Definition InvalidInputError : string := "InvalidInputError".
Definition ZeroDivisionError : string := "ZeroDivisionError".
Definition KeyError : string := "KeyError".

(** ** The fragment of PuLP used by the program *)

Module pulp.

Inductive LpCategory := LpContinuous | LpInteger.
Inductive LpSense := LpMinimize | LpMaximize.
Inductive LpConstraintSense := LpConstraintLE | LpConstraintEQ | LpConstraintGE.

Record LpVariable := mkLpVariable {
  name : nat * nat;
  lowBound : Z;
  upBound : Z;
  cat : LpCategory
}.

(** [pulp.LpVariable(name, cat='Binary')]: an integer variable in [0, 1]. *)
Definition Binary (nm : nat * nat) : LpVariable :=
  {| name := nm; lowBound := 0; upBound := 1; cat := LpInteger |}.

Global Instance LpVariable_inhabited : Inhabited LpVariable :=
  populate (Binary (0%nat, 0%nat)).

(** A linear expression: terms [coefficient * variable]. *)
Definition LpAffineExpression := list (LpVariable * Z).

Definition lpSum (vars : list LpVariable) : LpAffineExpression :=
  map (λ v, (v, 1)) vars.

Record LpConstraint := mkLpConstraint {
  expr : LpAffineExpression;
  csense : LpConstraintSense;
  rhs : Z
}.

Notation "e '<=!' k" := (mkLpConstraint e LpConstraintLE k) (at level 70).
Notation "v '==!' k" := (mkLpConstraint (lpSum [v]) LpConstraintEQ k) (at level 70).

Record LpProblem := mkLpProblem {
  sense : LpSense;
  objective : LpAffineExpression;
  constraints : list LpConstraint
}.

(** The values the solver leaves in the variables. *)
Definition valuation := nat * nat → Z.

(** [pulp.value(e)] *)
Fixpoint value (sol : valuation) (e : LpAffineExpression) : Z :=
  match e with
  | [] => 0
  | (v, c) :: e' => c * sol (name v) + value sol e'
  end.

Definition satisfied (sol : valuation) (c : LpConstraint) : Prop :=
  match csense c with
  | LpConstraintLE => value sol (expr c) ≤ rhs c
  | LpConstraintEQ => value sol (expr c) = rhs c
  | LpConstraintGE => rhs c ≤ value sol (expr c)
  end.

Definition within_bounds (sol : valuation) (v : LpVariable) : Prop :=
  lowBound v ≤ sol (name v) ≤ upBound v.

(** [model.variables()]: the variables of the objective and of the
    constraints. *)
Definition variables (m : LpProblem) : list LpVariable :=
  (objective m).*1 ++ (c ← constraints m; (expr c).*1).

Definition feasible (m : LpProblem) (sol : valuation) : Prop :=
  Forall (within_bounds sol) (variables m) ∧
  Forall (satisfied sol) (constraints m).

Definition better (s : LpSense) (a b : Z) : Prop :=
  match s with
  | LpMaximize => b ≤ a
  | LpMinimize => a ≤ b
  end.

(** The contract of [model.solve] when it ends with status Optimal:
    the values are feasible and no feasible values have a better
    objective. *)
Definition LpStatusOptimal (m : LpProblem) (sol : valuation) : Prop :=
  feasible m sol ∧
  ∀ sol', feasible m sol' →
    better (sense m) (value sol (objective m)) (value sol' (objective m)).

End pulp.
Import pulp.

(** ** Input records *)

Record instructor := mkInstructor {
  instructor_id : Z;
  qualifications : list Z
}.

Record student := mkStudent {
  student_id : Z;
  course : Z
}.

Global Instance instructor_inhabited : Inhabited instructor :=
  populate (mkInstructor 0 []).
Global Instance student_inhabited : Inhabited student :=
  populate (mkStudent 0 0).

(** ** create_optimization_model *)

(** [list(range(n))] *)
Definition range (n : nat) : list nat := seq 0 n.

Definition course_ids : list Z := [1; 2; 3].

(** The nested loop filling the dictionary [x].  Every key read afterwards
    by [create_optimization_model] has been stored by this loop, so its
    lookups [x[i, j]] are written with the total lookup [!!!]; so are
    [instructors[i]] and [students[j]], whose positions come from
    [range(len(...))]. *)
Definition decision_variables (instructor_ids student_ids : list nat)
    : gmap (nat * nat) LpVariable :=
  foldl (λ x i,
    foldl (λ x j, <[(i, j) := Binary (i, j)]> x) x student_ids)
    ∅ instructor_ids.

Definition create_optimization_model
    (instructors : list instructor) (students : list student)
    (aircraft_count : Z) : outcome (LpProblem * gmap (nat * nat) LpVariable) :=
  let instructor_ids := range (length instructors) in
  let student_ids := range (length students) in
  let x := decision_variables instructor_ids student_ids in
  let objective :=
    lpSum (i ← instructor_ids; j ← student_ids; [x !!! (i, j)]) in
  (* Constraint 1 *)
  let c1 := (λ i, lpSum ((λ j, x !!! (i, j)) <$> student_ids) <=! 1)
              <$> instructor_ids in
  (* Constraint 2 *)
  let c2 := (λ j, lpSum ((λ i, x !!! (i, j)) <$> instructor_ids) <=! 1)
              <$> student_ids in
  (* Constraint 3 *)
  let c3 :=
    i ← instructor_ids; j ← student_ids; c ← course_ids;
    if bool_decide (c ∉ qualifications (instructors !!! i))
       && bool_decide (c = course (students !!! j))
    then [x !!! (i, j) ==! 0] else [] in
  (* Constraint 4 *)
  let c4 :=
    lpSum (i ← instructor_ids; j ← student_ids; [x !!! (i, j)])
      <=! aircraft_count in
  Returns (mkLpProblem LpMaximize objective (c1 ++ c2 ++ c3 ++ [c4]), x).

(** ** solve_and_display_results *)

(** [str(l)] for a list of integers. *)
Definition py_str_list (l : list Z) : string :=
  "[" +:+ String.concat ", " (pretty <$> l) +:+ "]".

Record result_row := mkRow {
  Instructor_ID : Z;
  Instructor_Qualifications : string;
  Student_ID : Z;
  Student_Course : Z
}.

(** A solver command, such as [pulp.PULP_CBC_CMD(msg=False)]:
    [model.solve(cmd)] leaves [cmd model] in the variables. *)
Definition solver := LpProblem → valuation.

(** [x[i, j]] raises [KeyError] on a dictionary without the key.  The values
    read by [pulp.value], floats in Python, are integers here. *)
Definition solve_and_display_results (PULP_CBC_CMD : solver)
    (model : LpProblem) (x : gmap (nat * nat) LpVariable)
    (instructors : list instructor) (students : list student)
    : outcome (list result_row * Z * Z) :=
  let sol := PULP_CBC_CMD model in
  '(results, assigned_students) ←
    for_each (λ st i,
      for_each (λ '(results, assigned_students) j,
        match x !! (i, j) with
        | None => Raises KeyError
        | Some v =>
            if bool_decide (sol (name v) = 1) then
              Returns (results ++ [
                {| Instructor_ID := Z.of_nat i + 1;
                   Instructor_Qualifications :=
                     py_str_list (qualifications (instructors !!! i));
                   Student_ID := Z.of_nat j + 1;
                   Student_Course := course (students !!! j) |}],
                assigned_students + 1)
            else Returns (results, assigned_students)
        end) st (range (length students)))
      ([], 0) (range (length instructors));
  let total_students := Z.of_nat (length students) in
  let unassigned_students := total_students - assigned_students in
  Returns (results, assigned_students, unassigned_students).

(** ** The "Run Optimization" block *)

Record unassigned_row := mkUnassigned {
  Unassigned_Student_ID : Z;
  Unassigned_Course : Z
}.

(** The Streamlit calls of the block, in the order they are made.
    [st_metric] carries the number computed, as an exact rational; the text
    that the source makes of it, [f"{...:.1f}%"] of a float, is not
    modelled. *)
Inductive st_call :=
  | st_header (body : string)
  | st_subheader (body : string)
  | st_write (body : string)
  | st_success (body : string)
  | st_warning (body : string)
  | st_error (body : string)
  | st_dataframe (data : list result_row)
  | st_dataframe_unassigned (data : list unassigned_row)
  | st_metric (label : string) (percentage : Q).

(** [a / b] on integers. *)
Definition truediv (a b : Z) : outcome Q :=
  if bool_decide (b = 0) then Raises ZeroDivisionError
  else Returns (inject_Z a / inject_Z b)%Q.

(** The body of [if st.button("Run Optimization"):].  The form above it
    builds [instructors] with [instructor_count] entries and [students] with
    [student_count] entries.  The result is the list of the calls made when
    the block runs to its end; the layout calls ([st.columns], [with col1:])
    are left out. *)
Definition run_optimization (PULP_CBC_CMD : solver)
    (aircraft_count instructor_count student_count : Z)
    (instructors : list instructor) (students : list student)
    : outcome (list st_call) :=
  let out := [
    st_header "Optimization Results";
    st_subheader "Input Summary";
    st_write ("Number of instructors: " +:+ pretty instructor_count);
    st_write ("Number of students: " +:+ pretty student_count);
    st_write ("Number of aircraft: " +:+ pretty aircraft_count)] in
  '(model, x) ← create_optimization_model instructors students aircraft_count;
  '(results_df, assigned_students, unassigned_students) ←
    solve_and_display_results PULP_CBC_CMD model x instructors students;
  let out := out ++ [st_subheader "Schedule Results"] in
  if bool_decide (assigned_students > 0) then
    let out := out ++ [
      st_success ("Optimization completed! " +:+ pretty assigned_students
                  +:+ " students assigned.");
      st_warning (pretty unassigned_students
                  +:+ " students could not be scheduled.");
      st_dataframe results_df] in
    a ← truediv assigned_students instructor_count;
    let instructor_utilization := (a * 100)%Q in
    b ← truediv assigned_students aircraft_count;
    let aircraft_utilization := (b * 100)%Q in
    let out := out ++ [
      st_metric "Instructor Utilization" instructor_utilization;
      st_metric "Aircraft Utilization" aircraft_utilization] in
    if bool_decide (unassigned_students > 0) then
      let assigned_student_ids := Student_ID <$> results_df in
      let unassigned_df :=
        j ← range (length students);
        if bool_decide (Z.of_nat j + 1 ∉ assigned_student_ids)
        then [ {| Unassigned_Student_ID := Z.of_nat j + 1;
                  Unassigned_Course := course (students !!! j) |} ]
        else [] in
      Returns (out ++ [st_subheader "Unassigned Students";
                       st_dataframe_unassigned unassigned_df])
    else Returns out
  else
    Returns (out ++ [st_error
      "No students could be assigned. Check instructor qualifications and constraints."]).

(** Scenario of the default form: three instructors qualified for [1],
    [1, 2], [1, 2, 3]; three students on courses 1, 2, 3. *)
Definition diagonal : valuation := λ '(i, j), if bool_decide (i = j) then 1 else 0.
Definition demo_instructors :=
  [mkInstructor 1 [1]; mkInstructor 2 [1; 2]; mkInstructor 3 [1; 2; 3]].
Definition demo_students := [mkStudent 1 1; mkStudent 2 2; mkStudent 3 3].

(** ** The input form *)

(** What the user has done to the widgets since the page was loaded, [None]
    for a widget left as it is.  A checkbox is identified by the two numbers
    of its key [instr_{i}_course_{c}], a radio by the number of its key
    [student_{i}_course]; the state of a radio is the position chosen among
    its options. *)
Record user_input := mkUserInput {
  ticked : nat * nat → option bool;
  chosen : nat → option nat
}.

(** The widgets and texts of the two loops, in the order they are made; the
    layout calls ([st.expander], [st.columns], [with col1:]) are left out. *)
Inductive form_call :=
  | form_subheader (body : string)
  | form_checkbox (label : string) (value : bool) (key : nat * nat)
  | form_radio (label : string) (options : list Z) (index : nat) (key : nat)
  | form_write (body : string)
  | form_divider.

(** [st.checkbox(label, value=value, key=key)] *)
Definition st_checkbox (user : user_input) (value : bool) (key : nat * nat)
    : bool :=
  default value (ticked user key).

(** [st.radio(label, options, index=index, key=key)] *)
Definition st_radio (user : user_input) (options : list Z) (index : nat)
    (key : nat) : Z :=
  options !!! default index (chosen user key).

(** The loop [for i in range(instructor_count)] of the form. *)
Definition instructor_form (user : user_input) (instructor_count : Z)
    : list instructor * list form_call :=
  foldl (λ '(instructors, calls) i,
    let qual1 := st_checkbox user true (i, 1%nat) in
    let qual2 := st_checkbox user (bool_decide (0 < i)%nat) (i, 2%nat) in
    let qual3 := st_checkbox user (bool_decide (1 < i)%nat) (i, 3%nat) in
    let qualifications := [] in
    let qualifications :=
      if qual1 then qualifications ++ [1] else qualifications in
    let qualifications :=
      if qual2 then qualifications ++ [2] else qualifications in
    let qualifications :=
      if qual3 then qualifications ++ [3] else qualifications in
    (instructors ++ [ {| instructor_id := Z.of_nat i + 1;
                         qualifications := qualifications |} ],
     calls ++ [
       form_subheader ("Instructor " +:+ pretty (Z.of_nat i + 1));
       form_checkbox "Course 1" true (i, 1%nat);
       form_checkbox "Course 2" (bool_decide (0 < i)%nat) (i, 2%nat);
       form_checkbox "Course 3" (bool_decide (1 < i)%nat) (i, 3%nat);
       form_write ("Qualified for courses: " +:+ py_str_list qualifications);
       form_divider]))
    ([], []) (range (Z.to_nat instructor_count)).

(** The loop [for i in range(student_count)] of the form. *)
Definition student_form (user : user_input) (student_count : Z)
    : list student * list form_call :=
  foldl (λ '(students, calls) i,
    let course := st_radio user [1; 2; 3] (i mod 3) i in
    (students ++ [ {| student_id := Z.of_nat i + 1; course := course |} ],
     calls ++ [
       form_subheader ("Student " +:+ pretty (Z.of_nat i + 1));
       form_radio ("Course Selection for Student " +:+ pretty (Z.of_nat i + 1))
         [1; 2; 3] (i mod 3) i;
       form_write ("Enrolled in course: " +:+ pretty course);
       form_divider]))
    ([], []) (range (Z.to_nat student_count)).

(** The form as loaded, before the user touches a widget. *)
Definition untouched : user_input :=
  {| ticked := λ _, None; chosen := λ _, None |}.

(** The block run on what the form holds. *)
Definition run_optimization_on_form (PULP_CBC_CMD : solver) (user : user_input)
    (aircraft_count instructor_count student_count : Z)
    : outcome (list st_call) :=
  run_optimization PULP_CBC_CMD aircraft_count instructor_count student_count
    (instructor_form user instructor_count).1
    (student_form user student_count).1.

(** * Notions used in the statements *)

(** ** Sums of integers over a list of positions *)

Fixpoint Zsum {A} (f : A → Z) (l : list A) : Z :=
  match l with
  | [] => 0
  | a :: l' => f a + Zsum f l'
  end.

(** ** What the constraints say about a valuation *)

Definition row_sum (sol : valuation) (student_ids : list nat) (i : nat) : Z :=
  Zsum (λ j, sol (i, j)) student_ids.

Definition column_sum (sol : valuation) (instructor_ids : list nat) (j : nat) : Z :=
  Zsum (λ i, sol (i, j)) instructor_ids.

Definition total (sol : valuation) (instructor_ids student_ids : list nat) : Z :=
  Zsum (λ i, row_sum sol student_ids i) instructor_ids.

(** The test of Constraint 3: some course of [course_ids] is the student's
    and is not among the instructor's qualifications. *)
Definition excluded (ins : instructor) (st : student) : Prop :=
  course st ∈ course_ids ∧ course st ∉ qualifications ins.

Record admissible (instructors : list instructor) (students : list student)
    (aircraft_count : Z) (sol : valuation) : Prop := {
  adm_binary : ∀ i j, (i < length instructors)%nat → (j < length students)%nat →
    0 ≤ sol (i, j) ≤ 1;
  adm_instructor : ∀ i, (i < length instructors)%nat →
    row_sum sol (range (length students)) i ≤ 1;
  adm_student : ∀ j, (j < length students)%nat →
    column_sum sol (range (length instructors)) j ≤ 1;
  adm_qualification : ∀ i j,
    (i < length instructors)%nat → (j < length students)%nat →
    excluded (instructors !!! i) (students !!! j) → sol (i, j) = 0;
  adm_aircraft :
    total sol (range (length instructors)) (range (length students))
      ≤ aircraft_count
}.

Global Instance excluded_dec ins st : Decision (excluded ins st).
Proof. unfold excluded. apply _. Defined.

Definition admissible_check (instructors : list instructor)
    (students : list student) (aircraft_count : Z) (sol : valuation) : Prop :=
  let I := range (length instructors) in
  let J := range (length students) in
  Forall (λ i,
    Forall (λ j, (0 ≤ sol (i, j) ≤ 1) ∧
                 (excluded (instructors !!! i) (students !!! j) → sol (i, j) = 0)) J
    ∧ row_sum sol J i ≤ 1) I
  ∧ Forall (λ j, column_sum sol I j ≤ 1) J
  ∧ total sol I J ≤ aircraft_count.

Global Instance admissible_check_dec instructors students aircraft_count sol :
  Decision (admissible_check instructors students aircraft_count sol).
Proof. unfold admissible_check. apply _. Defined.

(** The valuation that assigns nobody. *)
Definition nobody : valuation := λ _, 0.

(** ** The rows extracted by solve_and_display_results *)

Definition row_of (instructors : list instructor) (students : list student)
    (i j : nat) : result_row :=
  {| Instructor_ID := Z.of_nat i + 1;
     Instructor_Qualifications := py_str_list (qualifications (instructors !!! i));
     Student_ID := Z.of_nat j + 1;
     Student_Course := course (students !!! j) |}.

Definition rows_of_instructor (sol : valuation) instructors students
    (student_ids : list nat) (i : nat) : list result_row :=
  j ← student_ids;
  if bool_decide (sol (i, j) = 1) then [row_of instructors students i j] else [].

Definition assigned_rows (sol : valuation) instructors students
    (instructor_ids student_ids : list nat) : list result_row :=
  i ← instructor_ids; rows_of_instructor sol instructors students student_ids i.

(** The pairs of positions a table of rows reports. *)
Definition pairs_of (results_df : list result_row) : list (nat * nat) :=
  (λ r, (Z.to_nat (Instructor_ID r - 1), Z.to_nat (Student_ID r - 1)))
    <$> results_df.

(** The calls made before the problem is built. *)
Definition input_summary (aircraft_count instructor_count student_count : Z)
    : list st_call :=
  [st_header "Optimization Results";
   st_subheader "Input Summary";
   st_write ("Number of instructors: " +:+ pretty instructor_count);
   st_write ("Number of students: " +:+ pretty student_count);
   st_write ("Number of aircraft: " +:+ pretty aircraft_count)].

Definition no_students_assigned : st_call :=
  st_error
    "No students could be assigned. Check instructor qualifications and constraints.".

(** ** What the form holds *)

(** The record the form appends for instructor [i]. *)
Definition form_instructor (user : user_input) (i : nat) : instructor :=
  {| instructor_id := Z.of_nat i + 1;
     qualifications :=
       (if st_checkbox user true (i, 1%nat) then [1] else []) ++
       (if st_checkbox user (bool_decide (0 < i)%nat) (i, 2%nat) then [2] else []) ++
       (if st_checkbox user (bool_decide (1 < i)%nat) (i, 3%nat) then [3] else []) |}.

(** The record the form appends for student [i]. *)
Definition form_student (user : user_input) (i : nat) : student :=
  {| student_id := Z.of_nat i + 1;
     course := st_radio user [1; 2; 3] (i mod 3) i |}.

(** The calls the form makes for instructor [i]. *)
Definition instructor_calls (user : user_input) (i : nat) : list form_call :=
  [form_subheader ("Instructor " +:+ pretty (Z.of_nat i + 1));
   form_checkbox "Course 1" true (i, 1%nat);
   form_checkbox "Course 2" (bool_decide (0 < i)%nat) (i, 2%nat);
   form_checkbox "Course 3" (bool_decide (1 < i)%nat) (i, 3%nat);
   form_write ("Qualified for courses: "
               +:+ py_str_list (qualifications (form_instructor user i)));
   form_divider].

(** The calls the form makes for student [i]. *)
Definition student_calls (user : user_input) (i : nat) : list form_call :=
  [form_subheader ("Student " +:+ pretty (Z.of_nat i + 1));
   form_radio ("Course Selection for Student " +:+ pretty (Z.of_nat i + 1))
     [1; 2; 3] (i mod 3) i;
   form_write ("Enrolled in course: " +:+ pretty (course (form_student user i)));
   form_divider].

(** A radio holds one of the positions of its three options. *)
Definition valid_choices (user : user_input) : Prop :=
  ∀ i p, chosen user i = Some p → (p < 3)%nat.

(** A user who ticks course 3 for the first instructor and moves the second
    student to the third option. *)
Definition some_user : user_input :=
  {| ticked := λ k, if bool_decide (k = (0, 3)%nat) then Some true else None;
     chosen := λ i, if bool_decide (i = 1%nat) then Some 2%nat else None |}.

(** ** What the block displays *)

(** [(assigned_students / count) * 100] *)
Definition utilization (assigned count : Z) : Q :=
  (inject_Z assigned / inject_Z count * 100)%Q.

(** The table of the students whose [j + 1] is not in the column
    ["Student ID"] of the results. *)
Definition unassigned_table (students : list student)
    (results_df : list result_row) : list unassigned_row :=
  j ← range (length students);
  if bool_decide (Z.of_nat j + 1 ∉ Student_ID <$> results_df)
  then [ {| Unassigned_Student_ID := Z.of_nat j + 1;
            Unassigned_Course := course (students !!! j) |} ]
  else [].

(** The calls of the branch [if assigned_students > 0]. *)
Definition success_calls (aircraft_count instructor_count student_count : Z)
    (students : list student) (results_df : list result_row)
    (assigned unassigned : Z) : list st_call :=
  (((input_summary aircraft_count instructor_count student_count
     ++ [st_subheader "Schedule Results"])
    ++ [st_success ("Optimization completed! " +:+ pretty assigned
                    +:+ " students assigned.");
        st_warning (pretty unassigned +:+ " students could not be scheduled.");
        st_dataframe results_df])
   ++ [st_metric "Instructor Utilization" (utilization assigned instructor_count);
       st_metric "Aircraft Utilization" (utilization assigned aircraft_count)])
  ++ (if bool_decide (unassigned > 0)
      then [st_subheader "Unassigned Students";
            st_dataframe_unassigned (unassigned_table students results_df)]
      else []).

(** An optimum for [some_user] with three instructors, three students and
    three aircraft: instructor 1 (courses 1 and 3) takes student 2 (course
    3), instructor 2 takes student 1 and instructor 3 takes student 3. *)
Definition some_user_schedule : valuation := λ p,
  if bool_decide (p ∈ [(0, 1); (1, 0); (2, 2)]%nat) then 1 else 0.

(** The number of pairs that Constraint 3 excludes. *)
Definition excluded_count (instructors : list instructor)
    (students : list student) : Z :=
  Zsum (λ i,
    Zsum (λ j,
      if bool_decide (excluded (instructors !!! i) (students !!! j))
      then 1 else 0)
      (range (length students)))
    (range (length instructors)).

(** ** Valuations and orders used in the statements *)

(** The first [k] instructors each take the student of the same position. *)
Definition diagonal_pairs (k : nat) : list (nat * nat) :=
  (λ i, (i, i)) <$> seq 0 k.

(** The values of [sol] on the first [n] instructors and [m] students, and 0
    elsewhere. *)
Definition restrict (n m : nat) (sol : valuation) : valuation := λ '(i, j),
  if bool_decide ((i < n)%nat ∧ (j < m)%nat) then sol (i, j) else 0.

(** A row comes before another when its instructor comes first, or when
    they have the same instructor and its student comes first. *)
Definition row_before (r r' : result_row) : Prop :=
  Instructor_ID r < Instructor_ID r' ∨
  (Instructor_ID r = Instructor_ID r' ∧ Student_ID r < Student_ID r').

(** ** The invariants of a produced assignment *)

(** The five invariants, read on the rows returned and on the variables:
    (a) no instructor is in two rows, (b) no student is in two rows,
    (c) the student of a row requires a course its instructor is qualified
    for, (d) there are at most [aircraft_count] rows, (e) every variable of
    [x] has value 0 or 1. *)
Record assignment_invariants (instructors : list instructor)
    (students : list student) (aircraft_count : Z)
    (x : gmap (nat * nat) LpVariable) (sol : valuation)
    (results_df : list result_row) : Prop := {
  inv_instructor : NoDup (Instructor_ID <$> results_df);
  inv_student : NoDup (Student_ID <$> results_df);
  inv_qualification : ∀ r, r ∈ results_df →
    ∃ i j ins st,
      instructors !! i = Some ins ∧ students !! j = Some st ∧
      Instructor_ID r = Z.of_nat i + 1 ∧ Student_ID r = Z.of_nat j + 1 ∧
      course st ∈ qualifications ins;
  inv_aircraft : Z.of_nat (length results_df) ≤ aircraft_count;
  inv_binary : ∀ k v, x !! k = Some v → sol (name v) = 0 ∨ sol (name v) = 1
}.

(** ** The assignment problem of the specification *)

(** Written from the words of the specification, to be compared with the
    problem that [create_optimization_model] builds: an assignment is a set
    of (instructor, student) pairs under the four constraint families
    (instructor capacity, student exclusivity, qualification compatibility,
    aircraft ceiling). *)
Record valid_assignment (instructors : list instructor) (students : list student)
    (aircraft_count : Z) (M : list (nat * nat)) : Prop := {
  va_distinct : NoDup M;
  va_positions : ∀ i j, (i, j) ∈ M →
    (i < length instructors)%nat ∧ (j < length students)%nat;
  va_instructor_capacity : ∀ i j j', (i, j) ∈ M → (i, j') ∈ M → j = j';
  va_student_exclusivity : ∀ i i' j, (i, j) ∈ M → (i', j) ∈ M → i = i';
  va_qualification_compatibility : ∀ i j, (i, j) ∈ M →
    course (students !!! j) ∈ qualifications (instructors !!! i);
  va_aircraft_ceiling : Z.of_nat (length M) ≤ aircraft_count
}.

(** [n] is the largest size of a valid assignment. *)
Definition maximum_cardinality (instructors : list instructor)
    (students : list student) (aircraft_count : Z) (n : Z) : Prop :=
  (∃ M, valid_assignment instructors students aircraft_count M ∧
        Z.of_nat (length M) = n) ∧
  ∀ M, valid_assignment instructors students aircraft_count M →
       Z.of_nat (length M) ≤ n.

(** The valuation that assigns exactly the pairs of [M]. *)
Definition indicator (M : list (nat * nat)) : valuation := λ p,
  if bool_decide (p ∈ M) then 1 else 0.

(** No instructor is qualified for the course of any student. *)
Definition no_compatible_pair (instructors : list instructor)
    (students : list student) : Prop :=
  ∀ i j, (i < length instructors)%nat → (j < length students)%nat →
    course (students !!! j) ∉ qualifications (instructors !!! i).

(** ** Changes of the input *)

(** Instructor [k] loses the course [c]. *)
Definition remove_qualification (k : nat) (c : Z)
    (instructors : list instructor) : list instructor :=
  alter (λ ins, {| instructor_id := instructor_id ins;
                   qualifications := filter (λ q, q ≠ c) (qualifications ins) |})
        k instructors.

(** ** Scenarios *)

(** Two optima of the default scenario with two aircraft: instructor 2 takes
    student 1 and instructor 3 student 2, or instructor 1 takes student 1 and
    instructor 2 student 2. *)
Definition crossed : valuation := λ p,
  if bool_decide (p ∈ [(1, 0); (2, 1)]%nat) then 1 else 0.

Definition first_two : valuation := λ p,
  if bool_decide (p ∈ [(0, 0); (1, 1)]%nat) then 1 else 0.

(** The default scenario with [id] fields that are not the positions. *)
Definition renumbered_instructors :=
  [mkInstructor 70 [1]; mkInstructor 80 [1; 2]; mkInstructor 90 [1; 2; 3]].
Definition renumbered_students := [mkStudent 7 1; mkStudent 8 2; mkStudent 9 3].

(** One instructor qualified for course 1 only, one student on a course 4
    that is not in [course_ids], one aircraft: the loop over [course_ids]
    adds no constraint on the pair. *)
Definition course1_instructor := [mkInstructor 1 [1]].
Definition course4_student := [mkStudent 1 4].
Definition first_pair : valuation := λ p,
  if bool_decide (p = (0, 0)%nat) then 1 else 0.

(** * Properties *)

Lemma Returns_bind {A B} (a : A) (k : A → outcome B) : Returns a ≫= k = k a.
Proof. done. Qed.

(** ** Sums of integers over a list of positions *)

Section sums.
Context {A : Type}.
Implicit Types (f g : A → Z) (l : list A).

Lemma Zsum_app f l1 l2 : Zsum f (l1 ++ l2) = Zsum f l1 + Zsum f l2.
Proof. induction l1 as [|a l1 IH]; simpl; lia. Qed.

Lemma Zsum_ext f g l : (∀ a, a ∈ l → f a = g a) → Zsum f l = Zsum g l.
Proof.
  induction l as [|a l IH]; intros H; simpl; [done|].
  rewrite (H a) by apply list_elem_of_here.
  rewrite IH; [done|]. intros b Hb. by apply H, list_elem_of_further.
Qed.

Lemma Zsum_le f g l : (∀ a, a ∈ l → f a ≤ g a) → Zsum f l ≤ Zsum g l.
Proof.
  induction l as [|a l IH]; intros H; simpl; [done|].
  assert (f a ≤ g a) by apply H, list_elem_of_here.
  assert (Zsum f l ≤ Zsum g l)
    by (apply IH; intros b Hb; by apply H, list_elem_of_further).
  lia.
Qed.

Lemma Zsum_const (c : Z) l : Zsum (λ _, c) l = c * Z.of_nat (length l).
Proof. induction l as [|a l IH]; simpl length; simpl Zsum; lia. Qed.

Lemma Zsum_nonneg f l : (∀ a, a ∈ l → 0 ≤ f a) → 0 ≤ Zsum f l.
Proof.
  intros H. transitivity (Zsum (λ _, 0) l).
  - rewrite Zsum_const. lia.
  - by apply Zsum_le.
Qed.

Lemma Zsum_zero f l : (∀ a, a ∈ l → f a = 0) → Zsum f l = 0.
Proof.
  intros H. rewrite (Zsum_ext f (λ _, 0)) by done. rewrite Zsum_const. lia.
Qed.

Lemma Zsum_plus f g l : Zsum (λ a, f a + g a) l = Zsum f l + Zsum g l.
Proof. induction l as [|a l IH]; simpl; lia. Qed.

Lemma Zsum_elem f l a :
  (∀ b, b ∈ l → 0 ≤ f b) → a ∈ l → f a ≤ Zsum f l.
Proof.
  intros Hpos Ha. induction Ha as [a l|a b l Ha IH]; simpl.
  - assert (0 ≤ Zsum f l); [|lia].
    apply Zsum_nonneg. intros b Hb. by apply Hpos, list_elem_of_further.
  - assert (0 ≤ f b) by apply Hpos, list_elem_of_here.
    assert (f a ≤ Zsum f l); [|lia].
    apply IH. intros c Hc. by apply Hpos, list_elem_of_further.
Qed.

(** Two different positions both count. *)
Lemma Zsum_two_elems f l a b :
  (∀ c, c ∈ l → 0 ≤ f c) → a ∈ l → b ∈ l → a ≠ b → f a + f b ≤ Zsum f l.
Proof.
  intros Hpos Ha Hb Hab. induction l as [|c l IH]; [by apply elem_of_nil in Ha|].
  assert (∀ d, d ∈ l → 0 ≤ f d) as Hpos'
    by (intros d Hd; by apply Hpos, list_elem_of_further).
  pose proof (Hpos c (list_elem_of_here _ _)) as Hc.
  simpl. apply elem_of_cons in Ha as [->|Ha]; apply elem_of_cons in Hb as [->|Hb].
  - done.
  - pose proof (Zsum_elem f l b Hpos' Hb). lia.
  - pose proof (Zsum_elem f l a Hpos' Ha). lia.
  - specialize (IH Hpos' Ha Hb). lia.
Qed.

(** A sum of zeros and ones where at most one position holds a one. *)
Lemma Zsum_at_most_one f l :
  NoDup l →
  (∀ a, a ∈ l → f a = 0 ∨ f a = 1) →
  (∀ a b, a ∈ l → b ∈ l → f a = 1 → f b = 1 → a = b) →
  Zsum f l ≤ 1.
Proof.
  induction 1 as [|a l Hnotin Hnd IH]; intros Hbin Huniq; simpl; [lia|].
  destruct (Hbin a (list_elem_of_here _ _)) as [Ha|Ha].
  - rewrite Ha. cut (Zsum f l ≤ 1); [lia|]. apply IH.
    + intros b Hb. by apply Hbin, list_elem_of_further.
    + intros b c Hb Hc. apply Huniq; by apply list_elem_of_further.
  - rewrite Zsum_zero; [lia|]. intros b Hb.
    destruct (Hbin b (list_elem_of_further _ _ _ Hb)) as [Hb0|Hb1]; [done|].
    destruct Hnotin.
    by rewrite (Huniq a b (list_elem_of_here _ _)
                  (list_elem_of_further _ _ _ Hb) Ha Hb1).
Qed.

End sums.

Lemma Zsum_exchange {A B} (f : A → B → Z) (l : list A) (k : list B) :
  Zsum (λ a, Zsum (λ b, f a b) k) l = Zsum (λ b, Zsum (λ a, f a b) l) k.
Proof.
  induction l as [|a l IH]; simpl.
  - by rewrite Zsum_const.
  - by rewrite IH, Zsum_plus.
Qed.

(** Counting the positions kept by a test is summing an indicator. *)
Lemma length_bind_if {A B} (p : A → bool) (row : A → B) (l : list A) :
  Z.of_nat (length (a ← l; if p a then [row a] else [])) =
  Zsum (λ a, if p a then 1 else 0) l.
Proof.
  induction l as [|a l IH]; [done|].
  rewrite bind_cons, length_app. simpl Zsum. destruct (p a); simpl length; lia.
Qed.

Lemma length_bind_sum {A B} (f : A → list B) (l : list A) :
  Z.of_nat (length (l ≫= f)) = Zsum (λ a, Z.of_nat (length (f a))) l.
Proof.
  induction l as [|a l IH]; [done|].
  rewrite bind_cons, length_app. simpl Zsum. lia.
Qed.

(** ** The dictionary of decision variables *)

Lemma insert_binary_keep (x : gmap (nat * nat) LpVariable) k k' :
  x !! k = Some (Binary k) → <[k' := Binary k']> x !! k = Some (Binary k).
Proof.
  intros H. destruct (decide (k' = k)) as [->|Hne].
  - apply lookup_insert_eq.
  - by rewrite lookup_insert_ne.
Qed.

Lemma inner_loop_keep (i : nat) (student_ids : list nat) (x : gmap (nat * nat) LpVariable) k :
  x !! k = Some (Binary k) →
  foldl (λ x j, <[(i, j) := Binary (i, j)]> x) x student_ids !! k
    = Some (Binary k).
Proof.
  revert x. induction student_ids as [|j l IH]; intros x H; simpl; [done|].
  apply IH. by apply insert_binary_keep.
Qed.

Lemma inner_loop_lookup (i : nat) (student_ids : list nat)
    (x : gmap (nat * nat) LpVariable) (j : nat) :
  j ∈ student_ids →
  foldl (λ x j, <[(i, j) := Binary (i, j)]> x) x student_ids !! (i, j)
    = Some (Binary (i, j)).
Proof.
  revert x. induction student_ids as [|j' l IH]; intros x Hj; simpl.
  - by apply elem_of_nil in Hj.
  - apply elem_of_cons in Hj as [->|Hj]; [|by apply IH].
    apply inner_loop_keep, lookup_insert_eq.
Qed.

Lemma outer_loop_keep (instructor_ids student_ids : list nat)
    (x : gmap (nat * nat) LpVariable) k :
  x !! k = Some (Binary k) →
  foldl (λ x i, foldl (λ x j, <[(i, j) := Binary (i, j)]> x) x student_ids)
    x instructor_ids !! k = Some (Binary k).
Proof.
  revert x. induction instructor_ids as [|i l IH]; intros x H; simpl; [done|].
  by apply IH, inner_loop_keep.
Qed.

Lemma decision_variables_lookup instructor_ids student_ids (i j : nat) :
  i ∈ instructor_ids → j ∈ student_ids →
  decision_variables instructor_ids student_ids !! (i, j) = Some (Binary (i, j)).
Proof.
  unfold decision_variables. generalize (∅ : gmap (nat * nat) LpVariable).
  induction instructor_ids as [|i' l IH]; intros x Hi Hj; simpl.
  - by apply elem_of_nil in Hi.
  - apply elem_of_cons in Hi as [->|Hi]; [|by apply IH].
    by apply outer_loop_keep, inner_loop_lookup.
Qed.

Lemma decision_variables_total instructor_ids student_ids (i j : nat) :
  i ∈ instructor_ids → j ∈ student_ids →
  decision_variables instructor_ids student_ids !!! (i, j) = Binary (i, j).
Proof.
  intros Hi Hj. apply lookup_total_correct.
  by apply decision_variables_lookup.
Qed.

Lemma elem_of_range n i : i ∈ range n ↔ (i < n)%nat.
Proof. unfold range. rewrite elem_of_seq. lia. Qed.

Lemma NoDup_range n : NoDup (range n).
Proof. apply NoDup_seq. Qed.

Lemma length_range n : length (range n) = n.
Proof. apply length_seq. Qed.

(** ** What the constraints of the model say about a valuation *)

Lemma value_lpSum sol vars :
  value sol (lpSum vars) = Zsum (λ v, sol (name v)) vars.
Proof. induction vars as [|v l IH]; simpl; [done|]. rewrite IH. lia. Qed.

Lemma Zsum_fmap {A B} (g : A → B) (f : B → Z) l :
  Zsum f (g <$> l) = Zsum (f ∘ g) l.
Proof. induction l as [|a l IH]; csimpl; [done|]. by rewrite IH. Qed.

Lemma Zsum_bind {A B} (g : A → list B) (f : B → Z) l :
  Zsum f (l ≫= g) = Zsum (λ a, Zsum f (g a)) l.
Proof.
  induction l as [|a l IH]; [done|].
  rewrite bind_cons, Zsum_app. simpl. by rewrite IH.
Qed.

Section constraint_families.
Variables (x : gmap (nat * nat) LpVariable) (I J : list nat).
Hypothesis Hx : ∀ i j, i ∈ I → j ∈ J → x !!! (i, j) = Binary (i, j).
Variable sol : valuation.

Lemma value_row i :
  i ∈ I → value sol (lpSum ((λ j, x !!! (i, j)) <$> J)) = row_sum sol J i.
Proof.
  intros Hi. rewrite value_lpSum, Zsum_fmap. apply Zsum_ext.
  intros j Hj. simpl. by rewrite Hx.
Qed.

Lemma value_column j :
  j ∈ J → value sol (lpSum ((λ i, x !!! (i, j)) <$> I)) = column_sum sol I j.
Proof.
  intros Hj. rewrite value_lpSum, Zsum_fmap. apply Zsum_ext.
  intros i Hi. simpl. by rewrite Hx.
Qed.

Lemma value_all :
  value sol (lpSum (i ← I; j ← J; [x !!! (i, j)])) = total sol I J.
Proof.
  rewrite value_lpSum, Zsum_bind. apply Zsum_ext. intros i Hi.
  rewrite Zsum_bind. apply Zsum_ext. intros j Hj. simpl.
  rewrite Hx by done. simpl. lia.
Qed.

Lemma elem_of_all v :
  v ∈ (i ← I; j ← J; [x !!! (i, j)]) ↔
  ∃ i j, i ∈ I ∧ j ∈ J ∧ v = Binary (i, j).
Proof.
  rewrite list_elem_of_bind. split.
  - intros (i & (j & Hv & Hj)%list_elem_of_bind & Hi).
    apply list_elem_of_singleton in Hv. exists i, j. by rewrite <- Hx.
  - intros (i & j & Hi & Hj & ->). exists i. split; [|done].
    apply list_elem_of_bind. exists j. split; [|done].
    rewrite Hx by done. apply list_elem_of_singleton. done.
Qed.

Lemma lpSum_vars (vars : list LpVariable) : (lpSum vars).*1 = vars.
Proof. induction vars as [|v l IH]; csimpl; [done|]. by f_equal. Qed.

End constraint_families.

Section model.
Variables (instructors : list instructor) (students : list student).
Variable aircraft_count : Z.
Variables (model : LpProblem) (x : gmap (nat * nat) LpVariable).
Hypothesis Hmodel :
  create_optimization_model instructors students aircraft_count
    = Returns (model, x).

Let I := range (length instructors).
Let J := range (length students).

Lemma model_x : x = decision_variables I J.
Proof. by injection Hmodel as _ <-. Qed.

Lemma model_x_total i j : i ∈ I → j ∈ J → x !!! (i, j) = Binary (i, j).
Proof. rewrite model_x. apply decision_variables_total. Qed.

Lemma model_x_lookup (i j : nat) :
  (i < length instructors)%nat → (j < length students)%nat →
  x !! (i, j) = Some (Binary (i, j)).
Proof.
  intros Hi Hj. rewrite model_x.
  apply decision_variables_lookup; by apply elem_of_range.
Qed.

Lemma model_eq :
  model =
  mkLpProblem LpMaximize
    (lpSum (i ← I; j ← J; [x !!! (i, j)]))
    (((λ i, lpSum ((λ j, x !!! (i, j)) <$> J) <=! 1) <$> I) ++
     ((λ j, lpSum ((λ i, x !!! (i, j)) <$> I) <=! 1) <$> J) ++
     (i ← I; j ← J; c ← course_ids;
      if bool_decide (c ∉ qualifications (instructors !!! i))
         && bool_decide (c = course (students !!! j))
      then [x !!! (i, j) ==! 0] else []) ++
     [lpSum (i ← I; j ← J; [x !!! (i, j)]) <=! aircraft_count]).
Proof. rewrite model_x. by injection Hmodel as <- _. Qed.

Lemma model_sense : sense model = LpMaximize.
Proof. by rewrite model_eq. Qed.

Lemma model_objective sol : value sol (objective model) = total sol I J.
Proof.
  rewrite model_eq. cbn [objective]. apply value_all, model_x_total.
Qed.

Lemma model_constraints c :
  c ∈ constraints model ↔
    (∃ i, i ∈ I ∧ c = (lpSum ((λ j, x !!! (i, j)) <$> J) <=! 1)) ∨
    (∃ j, j ∈ J ∧ c = (lpSum ((λ i, x !!! (i, j)) <$> I) <=! 1)) ∨
    (∃ i j, i ∈ I ∧ j ∈ J ∧
       excluded (instructors !!! i) (students !!! j) ∧
       c = (x !!! (i, j) ==! 0)) ∨
    c = (lpSum (i ← I; j ← J; [x !!! (i, j)]) <=! aircraft_count).
Proof.
  rewrite model_eq. cbn [constraints].
  rewrite !elem_of_app, !list_elem_of_fmap, list_elem_of_singleton.
  assert (c ∈ (i ← I; j ← J; k ← course_ids;
               if bool_decide (k ∉ qualifications (instructors !!! i))
                  && bool_decide (k = course (students !!! j))
               then [x !!! (i, j) ==! 0] else []) ↔
          ∃ i j, i ∈ I ∧ j ∈ J ∧
            excluded (instructors !!! i) (students !!! j) ∧
            c = (x !!! (i, j) ==! 0)) as Hc3.
  { rewrite list_elem_of_bind. split.
    - intros (i & (j & (k & Hc & Hk)%list_elem_of_bind & Hj)%list_elem_of_bind & Hi).
      exists i, j. split_and!; try done.
      + destruct (bool_decide_reflect (k ∉ qualifications (instructors !!! i)));
          destruct (bool_decide_reflect (k = course (students !!! j)));
          simpl in Hc; try by apply elem_of_nil in Hc.
        split; by subst.
      + destruct (_ && _); [by apply list_elem_of_singleton in Hc|].
        by apply elem_of_nil in Hc.
    - intros (i & j & Hi & Hj & [Hk Hq] & ->).
      exists i. split; [|done].
      apply list_elem_of_bind. exists j. split; [|done].
      apply list_elem_of_bind. exists (course (students !!! j)). split; [|done].
      rewrite !bool_decide_eq_true_2 by done. simpl.
      by apply list_elem_of_singleton. }
  rewrite Hc3. split.
  - intros [(i & -> & Hi)|[(j & -> & Hj)|[H|H]]];
      [left; by exists i|right; left; by exists j
      |right; right; by left|by repeat right].
  - intros [(i & Hi & ->)|[(j & Hj & ->)|[H|H]]];
      [left; by exists i|right; left; by exists j
      |right; right; by left|by repeat right].
Qed.

Lemma model_variables v :
  v ∈ variables model ↔ ∃ i j, i ∈ I ∧ j ∈ J ∧ v = Binary (i, j).
Proof.
  unfold variables. rewrite elem_of_app, list_elem_of_bind. split.
  - intros [Hv|(c & Hv & Hc)].
    + rewrite model_eq in Hv. cbn [objective] in Hv.
      rewrite lpSum_vars in Hv. eapply elem_of_all; [apply model_x_total|done].
    + apply model_constraints in Hc
        as [(i & Hi & ->)|[(j & Hj & ->)|[(i & j & Hi & Hj & _ & ->)| ->]]];
        cbn [expr] in Hv; rewrite lpSum_vars in Hv.
      * apply list_elem_of_fmap in Hv as (j & -> & Hj).
        exists i, j. by rewrite model_x_total.
      * apply list_elem_of_fmap in Hv as (i & -> & Hi).
        exists i, j. by rewrite model_x_total.
      * apply list_elem_of_singleton in Hv as ->.
        exists i, j. by rewrite model_x_total.
      * eapply elem_of_all; [apply model_x_total|done].
  - intros Hv. left. rewrite model_eq. cbn [objective]. rewrite lpSum_vars.
    eapply elem_of_all; [apply model_x_total|done].
Qed.

(** The problem handed to the solver says exactly [admissible]. *)
Lemma model_feasible sol :
  feasible model sol ↔ admissible instructors students aircraft_count sol.
Proof.
  unfold feasible. rewrite !Forall_forall. split.
  - intros [Hb Hc]. split.
    + intros i j Hi Hj.
      apply (Hb (Binary (i, j))), model_variables.
      exists i, j. split_and!; [by apply elem_of_range..|done].
    + intros i Hi%elem_of_range. fold J.
      rewrite <- (value_row x I J model_x_total) by done.
      apply (Hc (_ <=! 1)), model_constraints. left. by exists i.
    + intros j Hj%elem_of_range. fold I.
      rewrite <- (value_column x I J model_x_total) by done.
      apply (Hc (_ <=! 1)), model_constraints. right; left. by exists j.
    + intros i j Hi%elem_of_range Hj%elem_of_range Hex.
      assert (satisfied sol (x !!! (i, j) ==! 0)) as Hs.
      { apply Hc, model_constraints. right; right; left. by exists i, j. }
      rewrite model_x_total in Hs by done.
      unfold satisfied in Hs; simpl in Hs. lia.
    + fold I J. rewrite <- (value_all x I J model_x_total).
      apply (Hc (_ <=! aircraft_count)), model_constraints. by repeat right.
  - intros [Hb Hr Hcol Hq Ha]. split.
    + intros v (i & j & Hi%elem_of_range & Hj%elem_of_range & ->)%model_variables.
      apply Hb; done.
    + intros c [(i & Hi & ->)|[(j & Hj & ->)|[(i & j & Hi & Hj & Hex & ->)| ->]]]%model_constraints;
        unfold satisfied; cbn [csense expr rhs].
      * rewrite (value_row x I J model_x_total) by done.
        by apply Hr, elem_of_range.
      * rewrite (value_column x I J model_x_total) by done.
        by apply Hcol, elem_of_range.
      * rewrite model_x_total by done. simpl.
        rewrite (Hq i j); [lia| | |done]; by apply elem_of_range.
      * by rewrite (value_all x I J model_x_total).
Qed.

Lemma model_optimal sol :
  LpStatusOptimal model sol ↔
  admissible instructors students aircraft_count sol ∧
  ∀ sol', admissible instructors students aircraft_count sol' →
    total sol' I J ≤ total sol I J.
Proof.
  unfold LpStatusOptimal. rewrite model_sense, model_feasible. simpl.
  split; intros [Hf Hopt]; (split; [done|]); intros sol' Hf'.
  - rewrite <- !model_objective. by apply Hopt, model_feasible.
  - rewrite !model_objective. by apply Hopt, model_feasible.
Qed.
End model.

(** ** The rows extracted by solve_and_display_results *)

Section extraction.
Variables (instructors : list instructor) (students : list student).
Variables (x : gmap (nat * nat) LpVariable) (sol : valuation).

Let inner (i : nat) := λ '(results, assigned_students) (j : nat),
  match x !! (i, j) with
  | None => Raises KeyError
  | Some v =>
      if bool_decide (sol (name v) = 1) then
        Returns (results ++ [
          {| Instructor_ID := Z.of_nat i + 1;
             Instructor_Qualifications :=
               py_str_list (qualifications (instructors !!! i));
             Student_ID := Z.of_nat j + 1;
             Student_Course := course (students !!! j) |}],
          assigned_students + 1)
      else Returns (results, assigned_students)
  end.

Lemma inner_step i j results assigned_students :
  x !! (i, j) = Some (Binary (i, j)) →
  inner i (results, assigned_students) j =
  if bool_decide (sol (i, j) = 1)
  then Returns (results ++ [row_of instructors students i j],
                assigned_students + 1)
  else Returns (results, assigned_students).
Proof. intros H. unfold inner. by rewrite H. Qed.

Lemma inner_loop_rows i student_ids results assigned_students :
  (∀ j, j ∈ student_ids → x !! (i, j) = Some (Binary (i, j))) →
  for_each (inner i) (results, assigned_students) student_ids =
  Returns
    (results ++ rows_of_instructor sol instructors students student_ids i,
     assigned_students
     + Z.of_nat (length (rows_of_instructor sol instructors students student_ids i))).
Proof.
  revert results assigned_students.
  induction student_ids as [|j l IH]; intros results assigned_students Hx.
  - simpl. rewrite app_nil_r. f_equal. f_equal. lia.
  - cbn [for_each]. rewrite inner_step by apply Hx, list_elem_of_here.
    unfold rows_of_instructor. rewrite bind_cons.
    fold (rows_of_instructor sol instructors students l i).
    destruct (bool_decide (sol (i, j) = 1)); simpl.
    + rewrite IH by (intros; apply Hx; by apply list_elem_of_further).
      rewrite <- app_assoc. simpl. f_equal. f_equal. lia.
    + rewrite IH by (intros; apply Hx; by apply list_elem_of_further).
      done.
Qed.

Lemma outer_loop_rows instructor_ids student_ids results assigned_students :
  (∀ i j, i ∈ instructor_ids → j ∈ student_ids →
     x !! (i, j) = Some (Binary (i, j))) →
  for_each (λ st i, for_each (inner i) st student_ids)
    (results, assigned_students) instructor_ids =
  Returns
    (results ++ assigned_rows sol instructors students instructor_ids student_ids,
     assigned_students
     + Z.of_nat (length (assigned_rows sol instructors students
                           instructor_ids student_ids))).
Proof.
  revert results assigned_students.
  induction instructor_ids as [|i l IH]; intros results assigned_students Hx.
  - simpl. rewrite app_nil_r. f_equal. f_equal. lia.
  - cbn [for_each]. rewrite inner_loop_rows
      by (intros; apply Hx; [apply list_elem_of_here|done]).
    rewrite Returns_bind, IH by (intros; apply Hx; [by apply list_elem_of_further|done]).
    unfold assigned_rows. rewrite bind_cons, length_app, app_assoc.
    f_equal. f_equal. lia.
Qed.
End extraction.

Lemma solve_and_display_results_rows cmd model x instructors students :
  (∀ i j, (i < length instructors)%nat → (j < length students)%nat →
     x !! (i, j) = Some (Binary (i, j))) →
  let rows := assigned_rows (cmd model) instructors students
                (range (length instructors)) (range (length students)) in
  solve_and_display_results cmd model x instructors students =
  Returns (rows, Z.of_nat (length rows),
           Z.of_nat (length students) - Z.of_nat (length rows)).
Proof.
  intros Hx rows. unfold solve_and_display_results.
  rewrite outer_loop_rows
    by (intros i j Hi%elem_of_range Hj%elem_of_range; by apply Hx).
  done.
Qed.

Section rows.
Variables (instructors : list instructor) (students : list student).
Variable sol : valuation.
Variables I J : list nat.

Lemma elem_of_rows_of_instructor r i :
  r ∈ rows_of_instructor sol instructors students J i ↔
  ∃ j, j ∈ J ∧ sol (i, j) = 1 ∧ r = row_of instructors students i j.
Proof.
  unfold rows_of_instructor. rewrite list_elem_of_bind. split.
  - intros (j & Hr & Hj). exists j.
    destruct (bool_decide_reflect (sol (i, j) = 1)).
    + by apply list_elem_of_singleton in Hr.
    + by apply elem_of_nil in Hr.
  - intros (j & Hj & Hs & ->). exists j.
    rewrite bool_decide_eq_true_2 by done. split; [|done].
    by apply list_elem_of_singleton.
Qed.

Lemma elem_of_assigned_rows r :
  r ∈ assigned_rows sol instructors students I J ↔
  ∃ i j, i ∈ I ∧ j ∈ J ∧ sol (i, j) = 1 ∧ r = row_of instructors students i j.
Proof.
  unfold assigned_rows. rewrite list_elem_of_bind. split.
  - intros (i & (j & ? & ? & ?)%elem_of_rows_of_instructor & ?). by exists i, j.
  - intros (i & j & ? & ? & ? & ?). exists i. split; [|done].
    apply elem_of_rows_of_instructor. by exists j.
Qed.

Lemma row_of_inj i j i' j' :
  row_of instructors students i j = row_of instructors students i' j' →
  i = i' ∧ j = j'.
Proof. intros [= ? _ ? _]. lia. Qed.

(** No row is extracted twice. *)
Lemma NoDup_assigned_rows :
  NoDup I → NoDup J → NoDup (assigned_rows sol instructors students I J).
Proof.
  intros HI HJ. apply NoDup_bind; [| |done].
  - intros i i' r _ _ (j & _ & _ & ->)%elem_of_rows_of_instructor
      (j' & _ & _ & E)%elem_of_rows_of_instructor.
    by apply row_of_inj in E as [-> _].
  - intros i _. apply NoDup_bind; [| |done].
    + intros j j' r _ _ Hr Hr'.
      destruct (bool_decide (sol (i, j) = 1)); [|by apply elem_of_nil in Hr].
      destruct (bool_decide (sol (i, j') = 1)); [|by apply elem_of_nil in Hr'].
      apply list_elem_of_singleton in Hr as ->.
      apply list_elem_of_singleton in Hr'. by apply row_of_inj in Hr' as [_ ->].
    + intros j _. destruct (bool_decide _); [apply NoDup_singleton|apply NoDup_nil_2].
Qed.

(** With values 0 or 1, counting the ones is summing the values. *)
Lemma length_assigned_rows :
  (∀ i j, i ∈ I → j ∈ J → 0 ≤ sol (i, j) ≤ 1) →
  Z.of_nat (length (assigned_rows sol instructors students I J)) = total sol I J.
Proof.
  intros Hb. unfold assigned_rows, total, row_sum. rewrite length_bind_sum.
  apply Zsum_ext. intros i Hi. unfold rows_of_instructor.
  rewrite (length_bind_if (λ j, bool_decide (sol (i, j) = 1))).
  apply Zsum_ext. intros j Hj. specialize (Hb i j Hi Hj).
  case_bool_decide; lia.
Qed.
End rows.

(** ** Consequences of the constraints *)

Section admissible_facts.
Variables (instructors : list instructor) (students : list student).
Variables (aircraft_count : Z) (sol : valuation).
Hypothesis Hadm : admissible instructors students aircraft_count sol.

Let I := range (length instructors).
Let J := range (length students).

Lemma adm_nonneg i j : i ∈ I → j ∈ J → 0 ≤ sol (i, j).
Proof. intros Hi%elem_of_range Hj%elem_of_range. by apply Hadm. Qed.

Lemma adm_zero_or_one i j : i ∈ I → j ∈ J → sol (i, j) = 0 ∨ sol (i, j) = 1.
Proof.
  intros Hi%elem_of_range Hj%elem_of_range.
  pose proof (adm_binary _ _ _ _ Hadm i j Hi Hj). lia.
Qed.

Lemma adm_one_student_per_instructor i j j' :
  i ∈ I → j ∈ J → j' ∈ J → sol (i, j) = 1 → sol (i, j') = 1 → j = j'.
Proof.
  intros Hi Hj Hj' H1 H1'. destruct (decide (j = j')) as [|Hne]; [done|].
  pose proof (adm_instructor _ _ _ _ Hadm i (proj1 (elem_of_range _ _) Hi)) as Hrow.
  pose proof (Zsum_two_elems (λ j, sol (i, j)) J j j') as Htwo.
  unfold row_sum in Hrow. fold J in Hrow. simpl in Htwo.
  assert (sol (i, j) + sol (i, j') ≤ Zsum (λ j, sol (i, j)) J)
    by (apply Htwo; try done; intros; by apply adm_nonneg).
  lia.
Qed.

Lemma adm_one_instructor_per_student i i' j :
  i ∈ I → i' ∈ I → j ∈ J → sol (i, j) = 1 → sol (i', j) = 1 → i = i'.
Proof.
  intros Hi Hi' Hj H1 H1'. destruct (decide (i = i')) as [|Hne]; [done|].
  pose proof (adm_student _ _ _ _ Hadm j (proj1 (elem_of_range _ _) Hj)) as Hcol.
  pose proof (Zsum_two_elems (λ i, sol (i, j)) I i i') as Htwo.
  unfold column_sum in Hcol. fold I in Hcol. simpl in Htwo.
  assert (sol (i, j) + sol (i', j) ≤ Zsum (λ i, sol (i, j)) I)
    by (apply Htwo; try done; intros; by apply adm_nonneg).
  lia.
Qed.

Lemma adm_total_nonneg : 0 ≤ total sol I J.
Proof.
  apply Zsum_nonneg. intros i Hi. apply Zsum_nonneg. intros j Hj.
  by apply adm_nonneg.
Qed.

Lemma adm_total_le_instructors : total sol I J ≤ Z.of_nat (length instructors).
Proof.
  unfold total. etransitivity.
  - apply (Zsum_le _ (λ _, 1)). intros i Hi%elem_of_range. by apply Hadm.
  - rewrite Zsum_const. unfold I. rewrite length_range. lia.
Qed.

Lemma adm_total_le_students : total sol I J ≤ Z.of_nat (length students).
Proof.
  unfold total, row_sum. rewrite Zsum_exchange. etransitivity.
  - apply (Zsum_le _ (λ _, 1)). intros j Hj%elem_of_range.
    by apply (adm_student _ _ _ _ Hadm).
  - rewrite Zsum_const. unfold J. rewrite length_range. lia.
Qed.

Lemma adm_total_le_aircraft : total sol I J ≤ aircraft_count.
Proof. apply Hadm. Qed.
End admissible_facts.

Lemma total_nobody I J : total nobody I J = 0.
Proof. apply Zsum_zero. intros i _. by apply Zsum_zero. Qed.

Lemma admissible_nobody instructors students aircraft_count :
  0 ≤ aircraft_count → admissible instructors students aircraft_count nobody.
Proof.
  intros Hac. split; unfold row_sum, column_sum; intros;
    rewrite ?total_nobody, ?Zsum_zero; unfold nobody; try done; lia.
Qed.

(** ** Building, solving and extracting together *)

Section pipeline.
Variables (instructors : list instructor) (students : list student).
Variable aircraft_count : Z.
Variables (model : LpProblem) (x : gmap (nat * nat) LpVariable).
Variable PULP_CBC_CMD : solver.
Hypothesis Hmodel :
  create_optimization_model instructors students aircraft_count
    = Returns (model, x).

Let I := range (length instructors).
Let J := range (length students).
Let sol := PULP_CBC_CMD model.

Lemma pipeline_returns :
  solve_and_display_results PULP_CBC_CMD model x instructors students =
  Returns (assigned_rows sol instructors students I J,
           Z.of_nat (length (assigned_rows sol instructors students I J)),
           Z.of_nat (length students)
           - Z.of_nat (length (assigned_rows sol instructors students I J))).
Proof.
  apply solve_and_display_results_rows.
  intros i j. by apply (model_x_lookup _ _ _ _ _ Hmodel).
Qed.

Variables (results_df : list result_row) (assigned unassigned : Z).
Hypothesis Hresults :
  solve_and_display_results PULP_CBC_CMD model x instructors students
    = Returns (results_df, assigned, unassigned).

Lemma pipeline_rows :
  results_df = assigned_rows sol instructors students I J.
Proof. rewrite pipeline_returns in Hresults. by injection Hresults. Qed.

Lemma pipeline_assigned : assigned = Z.of_nat (length results_df).
Proof.
  rewrite pipeline_rows. rewrite pipeline_returns in Hresults.
  by injection Hresults.
Qed.

Lemma pipeline_unassigned :
  unassigned = Z.of_nat (length students) - assigned.
Proof.
  rewrite pipeline_assigned, pipeline_rows.
  rewrite pipeline_returns in Hresults. by injection Hresults.
Qed.

Hypothesis Hoptimal : LpStatusOptimal model sol.

Lemma pipeline_admissible : admissible instructors students aircraft_count sol.
Proof. by apply (model_optimal _ _ _ _ _ Hmodel) in Hoptimal as [? _]. Qed.

Lemma pipeline_assigned_total : assigned = total sol I J.
Proof.
  rewrite pipeline_assigned, pipeline_rows. apply length_assigned_rows.
  intros i j Hi%elem_of_range Hj%elem_of_range. by apply pipeline_admissible.
Qed.

Lemma pipeline_maximum sol' :
  admissible instructors students aircraft_count sol' →
  total sol' I J ≤ assigned.
Proof.
  intros Hadm. rewrite pipeline_assigned_total.
  by apply (model_optimal _ _ _ _ _ Hmodel) in Hoptimal as [_ Hmax]; apply Hmax.
Qed.
End pipeline.

(** ** Checking a valuation against the constraints *)

Lemma admissible_check_correct instructors students aircraft_count sol :
  admissible_check instructors students aircraft_count sol ↔
  admissible instructors students aircraft_count sol.
Proof.
  unfold admissible_check. rewrite !Forall_forall. split.
  - intros (Hrow & Hcol & Htot). split; try done.
    + intros i j Hi%elem_of_range Hj%elem_of_range.
      destruct (Hrow i Hi) as [Hij _]. rewrite Forall_forall in Hij.
      by apply Hij.
    + intros i Hi%elem_of_range. by apply Hrow.
    + intros j Hj%elem_of_range. by apply Hcol.
    + intros i j Hi%elem_of_range Hj%elem_of_range.
      destruct (Hrow i Hi) as [Hij _]. rewrite Forall_forall in Hij.
      by apply Hij.
  - intros [Hb Hr Hc Hq Ha]. split_and!; try done.
    + intros i Hi%elem_of_range. split; [|by apply Hr].
      apply Forall_forall. intros j Hj%elem_of_range. split; [by apply Hb|by apply Hq].
    + intros j Hj%elem_of_range. by apply Hc.
Qed.

(** A feasible valuation that reaches one of the three ceilings is optimal. *)
Lemma optimal_at_ceiling instructors students aircraft_count model x sol :
  create_optimization_model instructors students aircraft_count
    = Returns (model, x) →
  admissible instructors students aircraft_count sol →
  Z.min (Z.min (Z.of_nat (length instructors)) (Z.of_nat (length students)))
        aircraft_count
    ≤ total sol (range (length instructors)) (range (length students)) →
  LpStatusOptimal model sol.
Proof.
  intros Hm Hadm Hmin. apply (model_optimal _ _ _ _ _ Hm). split; [done|].
  intros sol' Hadm'.
  pose proof (adm_total_le_instructors _ _ _ _ Hadm').
  pose proof (adm_total_le_students _ _ _ _ Hadm').
  pose proof (adm_total_le_aircraft _ _ _ _ Hadm'). lia.
Qed.

(** The contract of the solver can be met exactly when the capacity is not
    negative: the objective is bounded by the number of instructors, so among
    the admissible valuations, of which [nobody] is one, some have the largest
    total. *)
Lemma optimum_exists instructors students aircraft_count model x :
  create_optimization_model instructors students aircraft_count
    = Returns (model, x) →
  0 ≤ aircraft_count → ∃ sol, LpStatusOptimal model sol.
Proof.
  intros Hm Hac.
  pose (sum := λ sol,
    total sol (range (length instructors)) (range (length students))).
  cut (∀ (d : nat) sol,
         admissible instructors students aircraft_count sol →
         Z.of_nat (length instructors) - sum sol ≤ Z.of_nat d →
         ∃ best, admissible instructors students aircraft_count best ∧
           ∀ sol', admissible instructors students aircraft_count sol' →
             sum sol' ≤ sum best).
  { intros Hcut.
    destruct (Hcut (length instructors) nobody) as (best & Hbest & Hmax).
    - by apply admissible_nobody.
    - unfold sum. rewrite total_nobody. lia.
    - exists best. by apply (model_optimal _ _ _ _ _ Hm). }
  induction d as [|d IH]; intros sol Hadm Hd.
  - exists sol. split; [done|]. intros sol' Hadm'.
    pose proof (adm_total_le_instructors _ _ _ _ Hadm'). unfold sum in *. lia.
  - destruct (classic (∃ sol',
        admissible instructors students aircraft_count sol' ∧
        sum sol < sum sol')) as [(sol' & Hadm' & Hlt)|Hnone].
    + apply (IH sol' Hadm'). lia.
    + exists sol. split; [done|]. intros sol' Hadm'.
      destruct (Z.le_gt_cases (sum sol') (sum sol)); [done|].
      destruct Hnone. by exists sol'.
Qed.

Example demo_admissible : admissible demo_instructors demo_students 3 diagonal.
Proof. apply admissible_check_correct, (bool_decide_unpack _). by vm_compute. Qed.

Lemma demo_optimal model x :
  create_optimization_model demo_instructors demo_students 3 = Returns (model, x) →
  LpStatusOptimal model diagonal.
Proof.
  intros Hm. apply (optimal_at_ceiling _ _ _ _ _ _ Hm demo_admissible).
  by vm_compute.
Qed.

(** * The claims *)

(** ** Bound on the assigned count *)

(** C4, as amended. When the solver ends with an optimum, which needs an
    [aircraft_count] that is not negative, the assigned count returned by
    [solve_and_display_results] is at most the number of instructors, the
    number of students and [aircraft_count]. *)
Theorem assigned_count_at_most_min
    instructors students aircraft_count PULP_CBC_CMD model x
    results_df assigned unassigned :
  create_optimization_model instructors students aircraft_count
    = Returns (model, x) →
  LpStatusOptimal model (PULP_CBC_CMD model) →
  solve_and_display_results PULP_CBC_CMD model x instructors students
    = Returns (results_df, assigned, unassigned) →
  assigned ≤ Z.min (Z.min (Z.of_nat (length instructors))
                          (Z.of_nat (length students)))
                   aircraft_count.
Proof.
  intros Hm Hopt Hres.
  rewrite (pipeline_assigned_total _ _ _ _ _ _ Hm _ _ _ Hres Hopt).
  pose proof (pipeline_admissible _ _ _ _ _ _ Hm Hopt) as Hadm.
  pose proof (adm_total_le_instructors _ _ _ _ Hadm).
  pose proof (adm_total_le_students _ _ _ _ Hadm).
  pose proof (adm_total_le_aircraft _ _ _ _ Hadm). lia.
Qed.

Lemma assigned_count_at_most_min_witness :
  ∃ model x results_df,
    create_optimization_model demo_instructors demo_students 3
      = Returns (model, x) ∧
    LpStatusOptimal model diagonal ∧
    solve_and_display_results (λ _, diagonal) model x
      demo_instructors demo_students = Returns (results_df, 3, 0) ∧
    3 ≤ Z.min (Z.min 3 3) 3.
Proof.
  eexists _, _, _. split_and!.
  - reflexivity.
  - by eapply demo_optimal.
  - by vm_compute.
  - eapply (assigned_count_at_most_min demo_instructors demo_students 3
              (λ _, diagonal)).
    + reflexivity.
    + by eapply demo_optimal.
    + by vm_compute.
Defined.

(** C4, as stated, fails on a negative capacity, which the builder does not
    refuse: with three instructors, three students and [aircraft_count] -1
    the problem has no optimum, and the count returned, 0 when the solver
    leaves zeros and never negative whatever it leaves, is above
    min(3, 3, -1). *)
Lemma assigned_count_above_min_for_negative_capacity :
  ∃ model x,
    create_optimization_model demo_instructors demo_students (-1)
      = Returns (model, x) ∧
    (∀ sol, ¬ LpStatusOptimal model sol) ∧
    solve_and_display_results (λ _, nobody) model x
      demo_instructors demo_students = Returns ([], 0, 3) ∧
    ¬ (0 ≤ Z.min (Z.min (Z.of_nat (length demo_instructors))
                        (Z.of_nat (length demo_students)))
                 (-1)) ∧
    (∀ (PULP_CBC_CMD : solver) results_df assigned unassigned,
       solve_and_display_results PULP_CBC_CMD model x
         demo_instructors demo_students
         = Returns (results_df, assigned, unassigned) →
       ¬ (assigned ≤ Z.min (Z.min (Z.of_nat (length demo_instructors))
                                  (Z.of_nat (length demo_students)))
                           (-1))).
Proof.
  eexists _, _. refine (conj eq_refl (conj _ (conj _ (conj _ _)))).
  - intros sol [Hadm%(model_feasible _ _ _ _ _ eq_refl) _].
    pose proof (adm_total_nonneg _ _ _ _ Hadm).
    pose proof (adm_total_le_aircraft _ _ _ _ Hadm). lia.
  - by vm_compute.
  - simpl. lia.
  - intros cmd results_df assigned unassigned Hres.
    rewrite (pipeline_assigned _ _ _ _ _ _ eq_refl _ _ _ Hres). simpl. lia.
Qed.

(** ** Unassigned students *)

(** C8. On the dictionary built by [create_optimization_model],
    [solve_and_display_results] returns, and the unassigned count it returns
    is the number of students minus the assigned count, the assigned count
    being the number of rows. *)
Theorem unassigned_is_total_minus_assigned
    instructors students aircraft_count PULP_CBC_CMD model x :
  create_optimization_model instructors students aircraft_count
    = Returns (model, x) →
  ∃ results_df assigned unassigned,
    solve_and_display_results PULP_CBC_CMD model x instructors students
      = Returns (results_df, assigned, unassigned) ∧
    assigned = Z.of_nat (length results_df) ∧
    unassigned = Z.of_nat (length students) - assigned.
Proof.
  intros Hm. eexists _, _, _. split; [|split].
  - by apply (pipeline_returns _ _ _ _ _ _ Hm).
  - reflexivity.
  - reflexivity.
Qed.

Lemma unassigned_is_total_minus_assigned_witness :
  ∃ model x,
    create_optimization_model demo_instructors demo_students 1
      = Returns (model, x) ∧
    ∃ results_df assigned unassigned,
      solve_and_display_results (λ _, (λ p, if bool_decide (p = (0, 0)%nat) then 1 else 0))
        model x demo_instructors demo_students
        = Returns (results_df, assigned, unassigned) ∧
      assigned = Z.of_nat (length results_df) ∧
      unassigned = Z.of_nat (length demo_students) - assigned.
Proof.
  eexists _, _. split.
  - reflexivity.
  - apply (unassigned_is_total_minus_assigned demo_instructors demo_students 1).
    reflexivity.
Defined.

(** ** Repeated solves *)

(** C9. Two solves of the same problem that both end with an optimum return
    the same assigned count, whatever pairs they choose. *)
Theorem assigned_count_deterministic
    instructors students aircraft_count model x
    (first_solve second_solve : solver)
    results_df assigned unassigned results_df' assigned' unassigned' :
  create_optimization_model instructors students aircraft_count
    = Returns (model, x) →
  LpStatusOptimal model (first_solve model) →
  LpStatusOptimal model (second_solve model) →
  solve_and_display_results first_solve model x instructors students
    = Returns (results_df, assigned, unassigned) →
  solve_and_display_results second_solve model x instructors students
    = Returns (results_df', assigned', unassigned') →
  assigned = assigned' ∧ unassigned = unassigned'.
Proof.
  intros Hm Hopt Hopt' Hres Hres'.
  pose proof (pipeline_admissible _ _ _ _ _ _ Hm Hopt) as Hadm.
  pose proof (pipeline_admissible _ _ _ _ _ _ Hm Hopt') as Hadm'.
  pose proof (pipeline_maximum _ _ _ _ _ _ Hm _ _ _ Hres Hopt _ Hadm') as Hle.
  pose proof (pipeline_maximum _ _ _ _ _ _ Hm _ _ _ Hres' Hopt' _ Hadm) as Hle'.
  rewrite <- (pipeline_assigned_total _ _ _ _ _ _ Hm _ _ _ Hres' Hopt') in Hle.
  rewrite <- (pipeline_assigned_total _ _ _ _ _ _ Hm _ _ _ Hres Hopt) in Hle'.
  assert (assigned = assigned') as <- by lia. split; [done|].
  rewrite (pipeline_unassigned _ _ _ _ _ _ Hm _ _ _ Hres).
  by rewrite (pipeline_unassigned _ _ _ _ _ _ Hm _ _ _ Hres').
Qed.

Lemma crossed_admissible : admissible demo_instructors demo_students 2 crossed.
Proof. apply admissible_check_correct, (bool_decide_unpack _). by vm_compute. Qed.

Lemma first_two_admissible : admissible demo_instructors demo_students 2 first_two.
Proof. apply admissible_check_correct, (bool_decide_unpack _). by vm_compute. Qed.

Lemma assigned_count_deterministic_witness :
  ∃ model x results_df results_df',
    create_optimization_model demo_instructors demo_students 2
      = Returns (model, x) ∧
    LpStatusOptimal model first_two ∧
    LpStatusOptimal model crossed ∧
    solve_and_display_results (λ _, first_two) model x
      demo_instructors demo_students = Returns (results_df, 2, 1) ∧
    solve_and_display_results (λ _, crossed) model x
      demo_instructors demo_students = Returns (results_df', 2, 1) ∧
    results_df ≠ results_df' ∧
    (2 = 2 ∧ 1 = 1).
Proof.
  eexists _, _, _, _.
  refine (conj _ (conj _ (conj _ (conj _ (conj _ (conj _ _)))))).
  - reflexivity.
  - eapply optimal_at_ceiling; [reflexivity|apply first_two_admissible|by vm_compute].
  - eapply optimal_at_ceiling; [reflexivity|apply crossed_admissible|by vm_compute].
  - by vm_compute.
  - by vm_compute.
  - intros [=].
  - eapply (assigned_count_deterministic demo_instructors demo_students 2 _ _
              (λ _, first_two) (λ _, crossed)).
    + reflexivity.
    + eapply optimal_at_ceiling; [reflexivity|apply first_two_admissible|by vm_compute].
    + eapply optimal_at_ceiling; [reflexivity|apply crossed_admissible|by vm_compute].
    + by vm_compute.
    + by vm_compute.
Defined.

(** ** Monotonicity *)

Lemma length_remove_qualification k c instructors :
  length (remove_qualification k c instructors) = length instructors.
Proof. apply length_alter. Qed.

Lemma remove_qualification_subseteq k c instructors i q :
  (i < length instructors)%nat →
  q ∈ qualifications (remove_qualification k c instructors !!! i) →
  q ∈ qualifications (instructors !!! i).
Proof.
  intros Hi. unfold remove_qualification.
  destruct (decide (k = i)) as [->|Hne].
  - rewrite list_lookup_total_alter_eq by done. simpl.
    by intros [_ ?]%list_elem_of_filter.
  - by rewrite list_lookup_total_alter_ne.
Qed.

(** Fewer qualifications or fewer aircraft only remove admissible
    valuations. *)
Lemma admissible_relax instructors instructors' students aircraft_count
    aircraft_count' sol :
  length instructors' = length instructors →
  (∀ i q, (i < length instructors)%nat →
     q ∈ qualifications (instructors' !!! i) →
     q ∈ qualifications (instructors !!! i)) →
  aircraft_count' ≤ aircraft_count →
  admissible instructors' students aircraft_count' sol →
  admissible instructors students aircraft_count sol.
Proof.
  intros Hlen Hsub Hac [Hb Hr Hc Hq Ha]. rewrite Hlen in *. split; try done.
  - intros i j Hi Hj [Hcourse Hnot]. apply Hq; try done.
    split; [done|]. intros Hin. by apply Hnot, Hsub.
  - lia.
Qed.

(** C5. Between two solves that both end with an optimum, on the same
    students: lowering [aircraft_count] with the same instructors, or removing
    one course from one instructor's qualifications with the same
    [aircraft_count], never increases the assigned count. *)
Theorem assigned_count_monotone
    instructors students aircraft_count instructors' aircraft_count'
    (PULP_CBC_CMD PULP_CBC_CMD' : solver) model x model' x'
    results_df assigned unassigned results_df' assigned' unassigned' :
  (instructors' = instructors ∧ aircraft_count' ≤ aircraft_count) ∨
  (aircraft_count' = aircraft_count ∧
   ∃ k c, instructors' = remove_qualification k c instructors) →
  create_optimization_model instructors students aircraft_count
    = Returns (model, x) →
  create_optimization_model instructors' students aircraft_count'
    = Returns (model', x') →
  LpStatusOptimal model (PULP_CBC_CMD model) →
  LpStatusOptimal model' (PULP_CBC_CMD' model') →
  solve_and_display_results PULP_CBC_CMD model x instructors students
    = Returns (results_df, assigned, unassigned) →
  solve_and_display_results PULP_CBC_CMD' model' x' instructors' students
    = Returns (results_df', assigned', unassigned') →
  assigned' ≤ assigned.
Proof.
  intros Hrel Hm Hm' Hopt Hopt' Hres Hres'.
  pose proof (pipeline_admissible _ _ _ _ _ _ Hm' Hopt') as Hadm'.
  rewrite (pipeline_assigned_total _ _ _ _ _ _ Hm' _ _ _ Hres' Hopt').
  assert (length instructors' = length instructors) as Hlen.
  { destruct Hrel as [[-> _]|[_ (k & c & ->)]];
      [done|apply length_remove_qualification]. }
  rewrite Hlen.
  apply (pipeline_maximum _ _ _ _ _ _ Hm _ _ _ Hres Hopt).
  destruct Hrel as [[-> Hac]|[-> (k & c & ->)]].
  - by apply (admissible_relax _ instructors _ _ aircraft_count') .
  - apply (admissible_relax _ (remove_qualification k c instructors) _ _
             aircraft_count); try done.
    intros i q. apply remove_qualification_subseteq.
Qed.

Lemma assigned_count_monotone_witness :
  let instructors' := remove_qualification 2 1 demo_instructors in
  ∃ model x model' x' results_df results_df',
    ((instructors' = demo_instructors ∧ 3 ≤ 3) ∨
     (3 = 3 ∧ ∃ k c, instructors' = remove_qualification k c demo_instructors)) ∧
    create_optimization_model demo_instructors demo_students 3
      = Returns (model, x) ∧
    create_optimization_model instructors' demo_students 3
      = Returns (model', x') ∧
    LpStatusOptimal model diagonal ∧
    LpStatusOptimal model' diagonal ∧
    solve_and_display_results (λ _, diagonal) model x
      demo_instructors demo_students = Returns (results_df, 3, 0) ∧
    solve_and_display_results (λ _, diagonal) model' x'
      instructors' demo_students = Returns (results_df', 3, 0) ∧
    3 ≤ 3.
Proof.
  assert (admissible (remove_qualification 2 1 demo_instructors)
            demo_students 3 diagonal) as Hadm
    by (apply admissible_check_correct, (bool_decide_unpack _); by vm_compute).
  intros instructors'. eexists _, _, _, _, _, _.
  refine (conj _ (conj _ (conj _ (conj _ (conj _ (conj _ (conj _ _))))))).
  - right. split; [done|]. by exists 2%nat, 1.
  - reflexivity.
  - reflexivity.
  - by eapply demo_optimal.
  - eapply optimal_at_ceiling; [reflexivity|exact Hadm|by vm_compute].
  - by vm_compute.
  - by vm_compute.
  - eapply (assigned_count_monotone demo_instructors demo_students 3
              instructors' 3 (λ _, diagonal) (λ _, diagonal)).
    + right. split; [done|]. by exists 2%nat, 1.
    + reflexivity.
    + reflexivity.
    + by eapply demo_optimal.
    + eapply optimal_at_ceiling; [reflexivity|exact Hadm|by vm_compute].
    + by vm_compute.
    + by vm_compute.
Defined.

(** ** Reported identifiers *)

Section same_data.
Variables (instructors instructors' : list instructor).
Variables (students students' : list student).
Hypothesis Hq : qualifications <$> instructors' = qualifications <$> instructors.
Hypothesis Hc : course <$> students' = course <$> students.

Lemma same_instructor_count : length instructors' = length instructors.
Proof. by rewrite <- (length_fmap qualifications), Hq, length_fmap. Qed.

Lemma same_student_count : length students' = length students.
Proof. by rewrite <- (length_fmap course), Hc, length_fmap. Qed.

Lemma same_qualifications i :
  i ∈ range (length instructors) →
  qualifications (instructors' !!! i) = qualifications (instructors !!! i).
Proof.
  intros Hi%elem_of_range.
  rewrite <- !(list_lookup_total_fmap qualifications), ?Hq; try done.
  by rewrite same_instructor_count.
Qed.

Lemma same_course j :
  j ∈ range (length students) →
  course (students' !!! j) = course (students !!! j).
Proof.
  intros Hj%elem_of_range.
  rewrite <- !(list_lookup_total_fmap course), ?Hc; try done.
  by rewrite same_student_count.
Qed.

Lemma same_model aircraft_count :
  create_optimization_model instructors' students' aircraft_count =
  create_optimization_model instructors students aircraft_count.
Proof.
  unfold create_optimization_model.
  rewrite same_instructor_count, same_student_count.
  do 4 f_equal. do 2 f_equal.
  apply Forall_bind_ext, Forall_forall. intros i Hi.
  apply Forall_bind_ext, Forall_forall. intros j Hj.
  by rewrite same_qualifications, same_course.
Qed.

Lemma same_rows sol :
  assigned_rows sol instructors' students'
    (range (length instructors')) (range (length students')) =
  assigned_rows sol instructors students
    (range (length instructors)) (range (length students)).
Proof.
  rewrite same_instructor_count, same_student_count. unfold assigned_rows.
  apply Forall_bind_ext, Forall_forall. intros i Hi.
  apply Forall_bind_ext, Forall_forall. intros j Hj.
  unfold row_of. by rewrite same_qualifications, same_course.
Qed.
End same_data.

(** C10. Every row returned by [solve_and_display_results] reports the
    position of the instructor plus one and the position of the student plus
    one, for a pair whose variable has value 1; and neither the problem built
    nor the values returned change when the [id] fields of the input records
    are replaced by any others. *)
Theorem reported_ids_are_positions
    instructors students aircraft_count PULP_CBC_CMD model x
    results_df assigned unassigned :
  create_optimization_model instructors students aircraft_count
    = Returns (model, x) →
  solve_and_display_results PULP_CBC_CMD model x instructors students
    = Returns (results_df, assigned, unassigned) →
  (∀ r, r ∈ results_df ↔
     ∃ i j, (i < length instructors)%nat ∧ (j < length students)%nat ∧
       PULP_CBC_CMD model (i, j) = 1 ∧
       r = {| Instructor_ID := Z.of_nat i + 1;
              Instructor_Qualifications :=
                py_str_list (qualifications (instructors !!! i));
              Student_ID := Z.of_nat j + 1;
              Student_Course := course (students !!! j) |}) ∧
  (∀ instructors' students',
     qualifications <$> instructors' = qualifications <$> instructors →
     course <$> students' = course <$> students →
     create_optimization_model instructors' students' aircraft_count
       = Returns (model, x) ∧
     solve_and_display_results PULP_CBC_CMD model x instructors' students'
       = Returns (results_df, assigned, unassigned)).
Proof.
  intros Hm Hres. split.
  - intros r. rewrite (pipeline_rows _ _ _ _ _ _ Hm _ _ _ Hres).
    rewrite elem_of_assigned_rows. unfold row_of.
    split; intros (i & j & Hi & Hj & ?); exists i, j;
      apply elem_of_range in Hi, Hj; done.
  - intros instructors' students' Hq Hc.
    assert (create_optimization_model instructors' students' aircraft_count
              = Returns (model, x)) as Hm'
      by (by rewrite (same_model _ _ _ _ Hq Hc)).
    split; [done|].
    rewrite (pipeline_returns _ _ _ _ _ _ Hm'), (same_rows _ _ _ _ Hq Hc).
    rewrite <- Hres, (same_student_count _ _ Hc).
    symmetry. apply (pipeline_returns _ _ _ _ _ _ Hm).
Qed.

Lemma reported_ids_are_positions_witness :
  ∃ model x results_df,
    create_optimization_model renumbered_instructors renumbered_students 3
      = Returns (model, x) ∧
    solve_and_display_results (λ _, diagonal) model x
      renumbered_instructors renumbered_students = Returns (results_df, 3, 0) ∧
    Instructor_ID <$> results_df = [1; 2; 3] ∧
    Student_ID <$> results_df = [1; 2; 3] ∧
    (∀ r, r ∈ results_df ↔
       ∃ i j, (i < 3)%nat ∧ (j < 3)%nat ∧ diagonal (i, j) = 1 ∧
         r = {| Instructor_ID := Z.of_nat i + 1;
                Instructor_Qualifications :=
                  py_str_list (qualifications (renumbered_instructors !!! i));
                Student_ID := Z.of_nat j + 1;
                Student_Course := course (renumbered_students !!! j) |}) ∧
    (∀ instructors' students',
       qualifications <$> instructors' = qualifications <$> renumbered_instructors →
       course <$> students' = course <$> renumbered_students →
       create_optimization_model instructors' students' 3 = Returns (model, x) ∧
       solve_and_display_results (λ _, diagonal) model x instructors' students'
         = Returns (results_df, 3, 0)).
Proof.
  eexists _, _, _.
  refine (conj _ (conj _ (conj _ (conj _ _)))).
  - reflexivity.
  - by vm_compute.
  - by vm_compute.
  - by vm_compute.
  - apply (reported_ids_are_positions renumbered_instructors renumbered_students 3
             (λ _, diagonal)).
    + reflexivity.
    + by vm_compute.
Defined.

(** ** The invariants of a produced assignment *)

Lemma inner_loop_dom (i : nat) (student_ids : list nat)
    (x : gmap (nat * nat) LpVariable) k v :
  foldl (λ x j, <[(i, j) := Binary (i, j)]> x) x student_ids !! k = Some v →
  x !! k = Some v ∨ (k.1 = i ∧ k.2 ∈ student_ids ∧ v = Binary k).
Proof.
  revert x. induction student_ids as [|j l IH]; intros x H; simpl in H; [by left|].
  apply IH in H as [H|(? & ? & ?)].
  - destruct (decide ((i, j) = k)) as [<-|Hne].
    + rewrite lookup_insert_eq in H. injection H as <-.
      right. split_and!; [done|apply list_elem_of_here|done].
    + rewrite lookup_insert_ne in H by done. by left.
  - right. split_and!; [done|by apply list_elem_of_further|done].
Qed.

Lemma decision_variables_dom instructor_ids student_ids k v :
  decision_variables instructor_ids student_ids !! k = Some v →
  k.1 ∈ instructor_ids ∧ k.2 ∈ student_ids ∧ v = Binary k.
Proof.
  unfold decision_variables.
  cut (∀ x : gmap (nat * nat) LpVariable,
         foldl (λ x i, foldl (λ x j, <[(i, j) := Binary (i, j)]> x) x student_ids)
           x instructor_ids !! k = Some v →
         x !! k = Some v ∨
         (k.1 ∈ instructor_ids ∧ k.2 ∈ student_ids ∧ v = Binary k)).
  { intros Hcut H. apply Hcut in H as [H|H]; [|done].
    by rewrite lookup_empty in H. }
  induction instructor_ids as [|i l IH]; intros x H; simpl in H; [by left|].
  apply IH in H as [H|(? & ? & ?)].
  - apply inner_loop_dom in H as [H|(<- & ? & ?)]; [by left|].
    right. split_and!; [apply list_elem_of_here|done..].
  - right. split_and!; [by apply list_elem_of_further|done..].
Qed.

(** C1, as amended. When every student's course is one of [course_ids] and
    the solver ends with an optimum, the rows returned and the values of the
    variables satisfy the five invariants. *)
Theorem produced_assignment_invariants
    instructors students aircraft_count PULP_CBC_CMD model x
    results_df assigned unassigned :
  Forall (λ st, course st ∈ course_ids) students →
  create_optimization_model instructors students aircraft_count
    = Returns (model, x) →
  LpStatusOptimal model (PULP_CBC_CMD model) →
  solve_and_display_results PULP_CBC_CMD model x instructors students
    = Returns (results_df, assigned, unassigned) →
  assignment_invariants instructors students aircraft_count x
    (PULP_CBC_CMD model) results_df.
Proof.
  intros Hcourses Hm Hopt Hres.
  pose proof (pipeline_admissible _ _ _ _ _ _ Hm Hopt) as Hadm.
  pose proof (pipeline_rows _ _ _ _ _ _ Hm _ _ _ Hres) as Hrows.
  set (sol := PULP_CBC_CMD model) in *.
  assert (NoDup results_df) as Hnd
    by (rewrite Hrows; apply NoDup_assigned_rows; apply NoDup_range).
  split.
  - apply NoDup_fmap_2_strong; [|done]. rewrite Hrows. intros r r'
      (i & j & Hi & Hj & Hs & ->)%elem_of_assigned_rows
      (i' & j' & Hi' & Hj' & Hs' & ->)%elem_of_assigned_rows E.
    simpl in E. assert (i = i') as <- by lia.
    by rewrite (adm_one_student_per_instructor _ _ _ _ Hadm i j j').
  - apply NoDup_fmap_2_strong; [|done]. rewrite Hrows. intros r r'
      (i & j & Hi & Hj & Hs & ->)%elem_of_assigned_rows
      (i' & j' & Hi' & Hj' & Hs' & ->)%elem_of_assigned_rows E.
    simpl in E. assert (j = j') as <- by lia.
    by rewrite (adm_one_instructor_per_student _ _ _ _ Hadm i i' j).
  - rewrite Hrows.
    intros r (i & j & Hi%elem_of_range & Hj%elem_of_range & Hs & ->)%elem_of_assigned_rows.
    exists i, j, (instructors !!! i), (students !!! j).
    split_and!; try done; try by apply list_lookup_lookup_total_lt.
    destruct (decide (course (students !!! j)
                        ∈ qualifications (instructors !!! i))) as [|Hnot]; [done|].
    assert (sol (i, j) = 0); [|lia].
    apply (adm_qualification _ _ _ _ Hadm); try done. split; [|done].
    rewrite Forall_forall in Hcourses. apply Hcourses.
    apply list_elem_of_lookup. exists j. by apply list_lookup_lookup_total_lt.
  - rewrite <- (pipeline_assigned _ _ _ _ _ _ Hm _ _ _ Hres).
    rewrite (pipeline_assigned_total _ _ _ _ _ _ Hm _ _ _ Hres Hopt).
    by apply adm_total_le_aircraft.
  - intros [i j] v Hv. rewrite (model_x _ _ _ _ _ Hm) in Hv.
    apply decision_variables_dom in Hv as (Hi & Hj & ->). simpl in *.
    by apply (adm_zero_or_one _ _ _ _ Hadm).
Qed.

Lemma produced_assignment_invariants_witness :
  ∃ model x results_df,
    Forall (λ st, course st ∈ course_ids) demo_students ∧
    create_optimization_model demo_instructors demo_students 3
      = Returns (model, x) ∧
    LpStatusOptimal model diagonal ∧
    solve_and_display_results (λ _, diagonal) model x
      demo_instructors demo_students = Returns (results_df, 3, 0) ∧
    assignment_invariants demo_instructors demo_students 3 x diagonal results_df.
Proof.
  eexists _, _, _.
  refine (conj _ (conj _ (conj _ (conj _ _)))).
  - apply (bool_decide_unpack _). by vm_compute.
  - reflexivity.
  - by eapply demo_optimal.
  - by vm_compute.
  - eapply (produced_assignment_invariants demo_instructors demo_students 3
              (λ _, diagonal)).
    + apply (bool_decide_unpack _). by vm_compute.
    + reflexivity.
    + by eapply demo_optimal.
    + by vm_compute.
Defined.

Lemma first_pair_optimal model x :
  create_optimization_model course1_instructor course4_student 1
    = Returns (model, x) →
  LpStatusOptimal model first_pair.
Proof.
  intros Hm. eapply optimal_at_ceiling; [exact Hm| |by vm_compute].
  apply admissible_check_correct, (bool_decide_unpack _). by vm_compute.
Qed.

(** C1, as stated, fails: a non-empty instructor list, a non-empty student
    list and one aircraft, where the optimum assigns the student to an
    instructor who is not qualified for the student's course. *)
Lemma invariants_fail_for_unlisted_course :
  course1_instructor ≠ [] ∧ course4_student ≠ [] ∧ 1 ≤ 1 ∧
  ∃ model x results_df assigned unassigned,
    create_optimization_model course1_instructor course4_student 1
      = Returns (model, x) ∧
    LpStatusOptimal model first_pair ∧
    solve_and_display_results (λ _, first_pair) model x
      course1_instructor course4_student
      = Returns (results_df, assigned, unassigned) ∧
    results_df = [ {| Instructor_ID := 1; Instructor_Qualifications := "[1]";
                      Student_ID := 1; Student_Course := 4 |} ] ∧
    ¬ assignment_invariants course1_instructor course4_student 1 x
        first_pair results_df.
Proof.
  split_and!; [done|done|lia|].
  eexists _, _, _, _, _.
  refine (conj _ (conj _ (conj _ (conj _ _)))).
  - reflexivity.
  - by eapply first_pair_optimal.
  - by vm_compute.
  - reflexivity.
  - intros [_ _ Hq _ _].
    destruct (Hq _ (list_elem_of_here _ _))
      as (i & j & ins & st & Hi & Hj & Ei & Ej & Hin).
    simpl in Ei, Ej.
    assert (i = 0%nat) as -> by lia. assert (j = 0%nat) as -> by lia.
    injection Hi as <-. injection Hj as <-. simpl in Hin.
    apply list_elem_of_singleton in Hin. done.
Qed.

(** ** Optimality *)

Section pairs.
Variables (instructors : list instructor) (students : list student).
Variable sol : valuation.
Variables I J : list nat.

Lemma elem_of_pairs_of_assigned_rows i j :
  (i, j) ∈ pairs_of (assigned_rows sol instructors students I J) ↔
  i ∈ I ∧ j ∈ J ∧ sol (i, j) = 1.
Proof.
  unfold pairs_of. rewrite list_elem_of_fmap. split.
  - intros (r & E & (i' & j' & Hi & Hj & Hs & ->)%elem_of_assigned_rows).
    simpl in E. injection E as -> ->.
    by replace (Z.to_nat (Z.of_nat i' + 1 - 1)) with i' by lia;
       replace (Z.to_nat (Z.of_nat j' + 1 - 1)) with j' by lia.
  - intros (Hi & Hj & Hs). exists (row_of instructors students i j). split.
    + simpl. f_equal; lia.
    + apply elem_of_assigned_rows. by exists i, j.
Qed.

Lemma NoDup_pairs_of_assigned_rows :
  NoDup I → NoDup J →
  NoDup (pairs_of (assigned_rows sol instructors students I J)).
Proof.
  intros HI HJ. apply NoDup_fmap_2_strong; [|by apply NoDup_assigned_rows].
  intros r r' (i & j & _ & _ & _ & ->)%elem_of_assigned_rows
    (i' & j' & _ & _ & _ & ->)%elem_of_assigned_rows [= Ei Ej].
  assert (i = i') as -> by lia. by assert (j = j') as -> by lia.
Qed.
End pairs.

Section indicator.
Variables (instructors : list instructor) (students : list student).
Variables (aircraft_count : Z) (M : list (nat * nat)).
Hypothesis Hvalid : valid_assignment instructors students aircraft_count M.

Let I := range (length instructors).
Let J := range (length students).

Lemma indicator_zero_or_one p : indicator M p = 0 ∨ indicator M p = 1.
Proof. unfold indicator. case_bool_decide; [by right|by left]. Qed.

Lemma indicator_one p : indicator M p = 1 ↔ p ∈ M.
Proof. unfold indicator. case_bool_decide; split; try done; lia. Qed.

Lemma total_indicator : total (indicator M) I J = Z.of_nat (length M).
Proof.
  rewrite <- (length_assigned_rows instructors students)
    by (intros i j _ _; destruct (indicator_zero_or_one (i, j)); lia).
  rewrite <- (length_fmap
    (λ r, (Z.to_nat (Instructor_ID r - 1), Z.to_nat (Student_ID r - 1)))).
  fold (pairs_of (assigned_rows (indicator M) instructors students I J)).
  f_equal. apply Permutation_length, NoDup_Permutation.
  - apply NoDup_pairs_of_assigned_rows; apply NoDup_range.
  - apply Hvalid.
  - intros [i j]. rewrite elem_of_pairs_of_assigned_rows, indicator_one.
    unfold I, J. rewrite !elem_of_range. split; [by intros (_ & _ & ?)|].
    intros Hin. by destruct (va_positions _ _ _ _ Hvalid i j Hin).
Qed.

Lemma admissible_indicator :
  admissible instructors students aircraft_count (indicator M).
Proof.
  split.
  - intros i j _ _. destruct (indicator_zero_or_one (i, j)); lia.
  - intros i _. apply Zsum_at_most_one; [apply NoDup_range| |].
    + intros j _. apply indicator_zero_or_one.
    + intros j j' _ _ ?%indicator_one ?%indicator_one.
      by apply (va_instructor_capacity _ _ _ _ Hvalid i).
  - intros j _. apply Zsum_at_most_one; [apply NoDup_range| |].
    + intros i _. apply indicator_zero_or_one.
    + intros i i' _ _ ?%indicator_one ?%indicator_one.
      by apply (va_student_exclusivity _ _ _ _ Hvalid i i' j).
  - intros i j _ _ [_ Hnot]. unfold indicator.
    rewrite bool_decide_eq_false_2; [done|]. intros Hin.
    by apply Hnot, (va_qualification_compatibility _ _ _ _ Hvalid).
  - fold I J. rewrite total_indicator. apply Hvalid.
Qed.
End indicator.

(** C2, as amended. When every student's course is one of [course_ids] and
    the solver ends with an optimum, the pairs reported by
    [solve_and_display_results] form a valid assignment, the assigned count
    is their number, and no valid assignment has more pairs. *)
Theorem assigned_count_is_maximum
    instructors students aircraft_count PULP_CBC_CMD model x
    results_df assigned unassigned :
  Forall (λ st, course st ∈ course_ids) students →
  create_optimization_model instructors students aircraft_count
    = Returns (model, x) →
  LpStatusOptimal model (PULP_CBC_CMD model) →
  solve_and_display_results PULP_CBC_CMD model x instructors students
    = Returns (results_df, assigned, unassigned) →
  valid_assignment instructors students aircraft_count (pairs_of results_df) ∧
  assigned = Z.of_nat (length (pairs_of results_df)) ∧
  maximum_cardinality instructors students aircraft_count assigned.
Proof.
  intros Hcourses Hm Hopt Hres.
  pose proof (pipeline_admissible _ _ _ _ _ _ Hm Hopt) as Hadm.
  pose proof (pipeline_rows _ _ _ _ _ _ Hm _ _ _ Hres) as Hrows.
  pose proof (pipeline_assigned _ _ _ _ _ _ Hm _ _ _ Hres) as Hassigned.
  set (sol := PULP_CBC_CMD model) in *.
  assert (valid_assignment instructors students aircraft_count
            (pairs_of results_df)) as Hvalid.
  { rewrite Hrows. split.
    - apply NoDup_pairs_of_assigned_rows; apply NoDup_range.
    - intros i j (Hi & Hj & _)%elem_of_pairs_of_assigned_rows.
      by apply elem_of_range in Hi, Hj.
    - intros i j j' (Hi & Hj & Hs)%elem_of_pairs_of_assigned_rows
        (_ & Hj' & Hs')%elem_of_pairs_of_assigned_rows.
      by apply (adm_one_student_per_instructor _ _ _ _ Hadm i).
    - intros i i' j (Hi & Hj & Hs)%elem_of_pairs_of_assigned_rows
        (Hi' & _ & Hs')%elem_of_pairs_of_assigned_rows.
      by apply (adm_one_instructor_per_student _ _ _ _ Hadm i i' j).
    - intros i j (Hi%elem_of_range & Hj%elem_of_range & Hs)%elem_of_pairs_of_assigned_rows.
      destruct (decide (course (students !!! j)
                          ∈ qualifications (instructors !!! i))) as [|Hnot]; [done|].
      assert (sol (i, j) = 0); [|lia].
      apply (adm_qualification _ _ _ _ Hadm); try done. split; [|done].
      rewrite Forall_forall in Hcourses. apply Hcourses.
      apply list_elem_of_lookup. exists j. by apply list_lookup_lookup_total_lt.
    - unfold pairs_of. rewrite length_fmap, <- Hrows, <- Hassigned.
      rewrite (pipeline_assigned_total _ _ _ _ _ _ Hm _ _ _ Hres Hopt).
      by apply adm_total_le_aircraft. }
  assert (assigned = Z.of_nat (length (pairs_of results_df))) as Hlen
    by (unfold pairs_of; by rewrite length_fmap).
  split_and!; [done|done|]. split.
  - by exists (pairs_of results_df).
  - intros M HM. rewrite <- (total_indicator instructors students aircraft_count M HM).
    apply (pipeline_maximum _ _ _ _ _ _ Hm _ _ _ Hres Hopt).
    by apply admissible_indicator.
Qed.

Lemma assigned_count_is_maximum_witness :
  ∃ model x results_df,
    Forall (λ st, course st ∈ course_ids) demo_students ∧
    create_optimization_model demo_instructors demo_students 2
      = Returns (model, x) ∧
    LpStatusOptimal model crossed ∧
    solve_and_display_results (λ _, crossed) model x
      demo_instructors demo_students = Returns (results_df, 2, 1) ∧
    pairs_of results_df = [(1, 0); (2, 1)]%nat ∧
    (valid_assignment demo_instructors demo_students 2 (pairs_of results_df) ∧
     2 = Z.of_nat (length (pairs_of results_df)) ∧
     maximum_cardinality demo_instructors demo_students 2 2).
Proof.
  eexists _, _, _.
  refine (conj _ (conj _ (conj _ (conj _ (conj _ _))))).
  - apply (bool_decide_unpack _). by vm_compute.
  - reflexivity.
  - eapply optimal_at_ceiling; [reflexivity|apply crossed_admissible|by vm_compute].
  - by vm_compute.
  - by vm_compute.
  - eapply (assigned_count_is_maximum demo_instructors demo_students 2
              (λ _, crossed)).
    + apply (bool_decide_unpack _). by vm_compute.
    + reflexivity.
    + eapply optimal_at_ceiling; [reflexivity|apply crossed_admissible|by vm_compute].
    + by vm_compute.
Defined.

(** C2, as stated, fails on the student of course 4: the solve returns one
    assigned student while the largest valid assignment is empty. *)
Lemma assigned_count_above_maximum_for_unlisted_course :
  ∃ model x results_df unassigned,
    create_optimization_model course1_instructor course4_student 1
      = Returns (model, x) ∧
    LpStatusOptimal model first_pair ∧
    solve_and_display_results (λ _, first_pair) model x
      course1_instructor course4_student
      = Returns (results_df, 1, unassigned) ∧
    maximum_cardinality course1_instructor course4_student 1 0 ∧
    ¬ maximum_cardinality course1_instructor course4_student 1 1.
Proof.
  assert (∀ M, valid_assignment course1_instructor course4_student 1 M → M = [])
    as Hempty.
  { intros [|[i j] M] HM; [done|]. exfalso.
    pose proof (va_positions _ _ _ _ HM i j (list_elem_of_here _ _)) as [Hi Hj].
    pose proof (va_qualification_compatibility _ _ _ _ HM i j
                  (list_elem_of_here _ _)) as Hq.
    simpl in Hi, Hj. assert (i = 0%nat) as -> by lia.
    assert (j = 0%nat) as -> by lia. vm_compute in Hq.
    by apply list_elem_of_singleton in Hq. }
  eexists _, _, _, _.
  refine (conj _ (conj _ (conj _ (conj _ _)))).
  - reflexivity.
  - by eapply first_pair_optimal.
  - by vm_compute.
  - split.
    + exists []. split; [|done]. split; try done; try by intros ? ? []%elem_of_nil.
      * apply NoDup_nil_2.
      * by intros ? ? ? []%elem_of_nil.
      * by intros ? ? ? []%elem_of_nil.
    + intros M ->%Hempty. done.
  - intros [(M & HM & Hlen) _]. by rewrite (Hempty M HM) in Hlen.
Qed.

(** ** The block around the solve *)

(** With no row extracted the block takes its [else] branch: no division is
    evaluated. *)
Lemma run_optimization_no_rows PULP_CBC_CMD aircraft_count instructor_count
    student_count instructors students model x :
  create_optimization_model instructors students aircraft_count
    = Returns (model, x) →
  assigned_rows (PULP_CBC_CMD model) instructors students
    (range (length instructors)) (range (length students)) = [] →
  run_optimization PULP_CBC_CMD aircraft_count instructor_count student_count
    instructors students =
  Returns (input_summary aircraft_count instructor_count student_count
           ++ [st_subheader "Schedule Results"; no_students_assigned]).
Proof.
  intros Hm Hrows. unfold run_optimization.
  rewrite Hm, Returns_bind, (pipeline_returns _ _ _ _ _ _ Hm), Hrows.
  reflexivity.
Qed.

Lemma Zsum_zero_inv {A} (f : A → Z) l a :
  (∀ b, b ∈ l → 0 ≤ f b) → Zsum f l = 0 → a ∈ l → f a = 0.
Proof.
  intros Hpos Hsum Ha. pose proof (Zsum_elem f l a Hpos Ha).
  specialize (Hpos a Ha). lia.
Qed.

(** With no aircraft every admissible valuation assigns nobody. *)
Lemma admissible_no_aircraft instructors students sol i j :
  admissible instructors students 0 sol →
  (i < length instructors)%nat → (j < length students)%nat → sol (i, j) = 0.
Proof.
  intros Hadm Hi%elem_of_range Hj%elem_of_range.
  pose proof (adm_total_nonneg _ _ _ _ Hadm).
  pose proof (adm_total_le_aircraft _ _ _ _ Hadm).
  assert (row_sum sol (range (length students)) i = 0) as Hrow.
  { apply (Zsum_zero_inv (λ i, row_sum sol (range (length students)) i)
             (range (length instructors))); [|unfold total in *; lia|done].
    intros i' Hi'. apply Zsum_nonneg. intros j' Hj'.
    by apply (adm_nonneg _ _ _ _ Hadm). }
  apply (Zsum_zero_inv (λ j, sol (i, j)) (range (length students))); try done.
  intros j' Hj'. by apply (adm_nonneg _ _ _ _ Hadm).
Qed.

Lemma assigned_rows_nil sol instructors students I J :
  (∀ i j, i ∈ I → j ∈ J → sol (i, j) = 0) →
  assigned_rows sol instructors students I J = [].
Proof.
  intros Hzero. apply elem_of_nil_inv.
  intros r (i & j & Hi & Hj & Hs & _)%elem_of_assigned_rows.
  rewrite Hzero in Hs by done. lia.
Qed.

(** ** Division by zero *)

(** C7, as amended. With no instructor, or with no aircraft and a solver
    that ends with an optimum, the block raises no exception and displays no
    utilization: it makes the calls of its [else] branch, ending with
    [st.error]. *)
Theorem no_division_without_assignment
    PULP_CBC_CMD aircraft_count instructors students model x :
  create_optimization_model instructors students aircraft_count
    = Returns (model, x) →
  instructors = [] ∨
    (aircraft_count = 0 ∧ LpStatusOptimal model (PULP_CBC_CMD model)) →
  run_optimization PULP_CBC_CMD aircraft_count
    (Z.of_nat (length instructors)) (Z.of_nat (length students))
    instructors students =
  Returns (input_summary aircraft_count (Z.of_nat (length instructors))
             (Z.of_nat (length students))
           ++ [st_subheader "Schedule Results"; no_students_assigned]).
Proof.
  intros Hm Hzero. apply (run_optimization_no_rows _ _ _ _ _ _ _ _ Hm).
  destruct Hzero as [->|[-> Hopt]]; [done|].
  apply assigned_rows_nil. intros i j Hi%elem_of_range Hj%elem_of_range.
  apply (admissible_no_aircraft instructors students); try done.
  by apply (pipeline_admissible _ _ _ _ _ _ Hm).
Qed.

Lemma nobody_optimal_without_aircraft instructors students model x :
  create_optimization_model instructors students 0 = Returns (model, x) →
  LpStatusOptimal model nobody.
Proof.
  intros Hm. apply (model_optimal _ _ _ _ _ Hm). split.
  - by apply admissible_nobody.
  - intros sol' Hadm'. rewrite total_nobody. by apply adm_total_le_aircraft in Hadm'.
Qed.

Lemma no_division_without_assignment_witness :
  ∃ model x,
    create_optimization_model demo_instructors demo_students 0
      = Returns (model, x) ∧
    ([] = demo_instructors ∨ (0 = 0 ∧ LpStatusOptimal model nobody)) ∧
    run_optimization (λ _, nobody) 0 3 3 demo_instructors demo_students =
    Returns [st_header "Optimization Results";
             st_subheader "Input Summary";
             st_write "Number of instructors: 3";
             st_write "Number of students: 3";
             st_write "Number of aircraft: 0";
             st_subheader "Schedule Results";
             no_students_assigned].
Proof.
  eexists _, _. refine (conj _ (conj _ _)).
  - reflexivity.
  - right. split; [done|]. by eapply nobody_optimal_without_aircraft.
  - eapply (no_division_without_assignment (λ _, nobody) 0
              demo_instructors demo_students).
    + reflexivity.
    + right. split; [done|]. by eapply nobody_optimal_without_aircraft.
Defined.

(** C7, as stated, fails: with no instructor, and with no aircraft, the block
    returns; it does not raise [ZeroDivisionError]. *)
Lemma zero_counts_raise_nothing :
  (∃ out,
     run_optimization (λ _, nobody) 3 0 3 [] demo_students = Returns out ∧
     run_optimization (λ _, nobody) 3 0 3 [] demo_students
       ≠ Raises ZeroDivisionError ∧
     last out = Some no_students_assigned) ∧
  (∃ model x out,
     create_optimization_model demo_instructors demo_students 0
       = Returns (model, x) ∧
     LpStatusOptimal model nobody ∧
     run_optimization (λ _, nobody) 0 3 3 demo_instructors demo_students
       = Returns out ∧
     run_optimization (λ _, nobody) 0 3 3 demo_instructors demo_students
       ≠ Raises ZeroDivisionError ∧
     last out = Some no_students_assigned).
Proof.
  split.
  - eexists. split_and!; [by vm_compute|by vm_compute|done].
  - eexists _, _, _. split_and!; [reflexivity| |by vm_compute|by vm_compute|done].
    by eapply nobody_optimal_without_aircraft.
Qed.

(** ** Inputs the builder does not refuse *)

(** The block returns or stops on a division by zero; it raises nothing
    else. *)
Lemma run_optimization_outcome PULP_CBC_CMD aircraft_count instructor_count
    student_count instructors students :
  (∃ out, run_optimization PULP_CBC_CMD aircraft_count instructor_count
            student_count instructors students = Returns out) ∨
  run_optimization PULP_CBC_CMD aircraft_count instructor_count
    student_count instructors students = Raises ZeroDivisionError.
Proof.
  unfold run_optimization.
  destruct (create_optimization_model instructors students aircraft_count)
    as [[model x]|e] eqn:Hm; [|discriminate Hm].
  rewrite Returns_bind, (pipeline_returns _ _ _ _ _ _ Hm), Returns_bind.
  cbv zeta. case_bool_decide; [|left; by eexists].
  unfold truediv.
  destruct (bool_decide (instructor_count = 0)); [by right|].
  rewrite Returns_bind.
  destruct (bool_decide (aircraft_count = 0)); [by right|].
  rewrite Returns_bind.
  destruct (bool_decide (_ - _ > 0)); left; by eexists.
Qed.

Lemma negative_capacity_infeasible instructors students aircraft_count model x :
  create_optimization_model instructors students aircraft_count
    = Returns (model, x) →
  aircraft_count < 0 → ∀ sol, ¬ feasible model sol.
Proof.
  intros Hm Hneg sol Hadm%(model_feasible _ _ _ _ _ Hm).
  pose proof (adm_total_nonneg _ _ _ _ Hadm).
  pose proof (adm_total_le_aircraft _ _ _ _ Hadm). lia.
Qed.

(** C3, as amended. [create_optimization_model] refuses no input: it returns
    a problem whatever the courses, the capacity and the lists, and the block
    goes on to the solve without raising [InvalidInputError].  With a
    negative [aircraft_count] the problem has no feasible valuation; with an
    empty list it has no variable and no student is assigned; a student whose
    course is not in [course_ids] gets no qualification constraint. *)
Theorem model_building_accepts_every_input
    (instructors : list instructor) (students : list student)
    (aircraft_count : Z) :
  ∃ model x,
    create_optimization_model instructors students aircraft_count
      = Returns (model, x) ∧
    (∀ PULP_CBC_CMD instructor_count student_count,
       run_optimization PULP_CBC_CMD aircraft_count instructor_count
         student_count instructors students ≠ Raises InvalidInputError) ∧
    (aircraft_count < 0 → ∀ sol, ¬ feasible model sol) ∧
    (instructors = [] ∨ students = [] →
       variables model = [] ∧
       ∀ PULP_CBC_CMD,
         solve_and_display_results PULP_CBC_CMD model x instructors students
           = Returns ([], 0, Z.of_nat (length students))) ∧
    (∀ i j, (i < length instructors)%nat → (j < length students)%nat →
       course (students !!! j) ∉ course_ids →
       (x !!! (i, j) ==! 0) ∉ constraints model).
Proof.
  destruct (create_optimization_model instructors students aircraft_count)
    as [[model x]|e] eqn:Hm; [|discriminate Hm].
  exists model, x. split_and!; [done| | | |].
  - intros cmd ic sc.
    destruct (run_optimization_outcome cmd aircraft_count ic sc
                instructors students) as [[out ->]| ->]; discriminate.
  - by apply (negative_capacity_infeasible _ _ _ _ _ Hm).
  - intros Hempty. split.
    + apply elem_of_nil_inv.
      intros v (i & j & Hi%elem_of_range & Hj%elem_of_range & _)%(model_variables _ _ _ _ _ Hm).
      destruct Hempty as [->| ->]; simpl in *; lia.
    + intros cmd. rewrite (pipeline_returns _ _ _ _ _ _ Hm).
      rewrite assigned_rows_nil; [simpl; do 2 f_equal; lia|].
      intros i j Hi%elem_of_range Hj%elem_of_range.
      destruct Hempty as [->| ->]; simpl in *; lia.
  - intros i j Hi%elem_of_range Hj%elem_of_range Hcourse
      [(i' & _ & E)|[(j' & _ & E)|[(i' & j' & Hi' & Hj' & [Hin _] & E)|E]]]%(model_constraints _ _ _ _ _ Hm);
      try discriminate E.
    rewrite !(model_x_total _ _ _ _ _ Hm) in E by done.
    injection E as -> ->. done.
Qed.

(** One call that meets every refusal condition of C3 at once: no
    instructor, a student on course 4, and a negative capacity. *)
Lemma model_building_accepts_every_input_witness :
  ∃ model x,
    create_optimization_model [] course4_student (-1) = Returns (model, x) ∧
    (∀ PULP_CBC_CMD instructor_count student_count,
       run_optimization PULP_CBC_CMD (-1) instructor_count
         student_count [] course4_student ≠ Raises InvalidInputError) ∧
    (-1 < 0 → ∀ sol, ¬ feasible model sol) ∧
    (@nil instructor = [] ∨ course4_student = [] →
       variables model = [] ∧
       ∀ PULP_CBC_CMD,
         solve_and_display_results PULP_CBC_CMD model x [] course4_student
           = Returns ([], 0, Z.of_nat (length course4_student))) ∧
    (∀ i j, (i < length (@nil instructor))%nat →
       (j < length course4_student)%nat →
       course (course4_student !!! j) ∉ course_ids →
       (x !!! (i, j) ==! 0) ∉ constraints model).
Proof.
  exact (model_building_accepts_every_input [] course4_student (-1)).
Defined.

(** C3, as stated, fails: on that call the builder returns a problem, with
    the constraints [0 <= 1] of the student and [0 <= -1] of the aircraft,
    instead of raising [InvalidInputError]; so does it for a student on
    course 4 alone, for a negative capacity alone and for an empty list
    alone. *)
Lemma invalid_input_is_not_refused :
  create_optimization_model [] course4_student (-1)
    = Returns (mkLpProblem LpMaximize [] [[] <=! 1; [] <=! -1], ∅) ∧
  create_optimization_model [] course4_student (-1) ≠ Raises InvalidInputError ∧
  create_optimization_model course1_instructor course4_student 1
    ≠ Raises InvalidInputError ∧
  create_optimization_model demo_instructors demo_students (-1)
    ≠ Raises InvalidInputError ∧
  create_optimization_model demo_instructors [] 3 ≠ Raises InvalidInputError.
Proof. split_and!; [reflexivity|discriminate..]. Qed.

(** ** Problems in which nobody can be assigned *)

Lemma admissible_no_compatible_pair instructors students aircraft_count sol i j :
  Forall (λ st, course st ∈ course_ids) students →
  no_compatible_pair instructors students →
  admissible instructors students aircraft_count sol →
  (i < length instructors)%nat → (j < length students)%nat → sol (i, j) = 0.
Proof.
  intros Hcourses Hnone Hadm Hi Hj.
  apply (adm_qualification _ _ _ _ Hadm); try done. split; [|by apply Hnone].
  rewrite Forall_forall in Hcourses. apply Hcourses.
  apply list_elem_of_lookup. exists j. by apply list_lookup_lookup_total_lt.
Qed.

(** C6, as amended. With no aircraft, or with a non-negative capacity,
    courses in [course_ids] and no compatible pair: the all-zero valuation is
    an optimum of the problem built; every optimum gives 0 to every variable;
    [solve_and_display_results] returns no row, 0 assigned students and all
    students unassigned, raising nothing; and the block reports it with
    [st.error]. *)
Theorem degenerate_problem_assigns_nobody
    PULP_CBC_CMD aircraft_count instructors students model x :
  aircraft_count = 0 ∨
    (0 ≤ aircraft_count ∧
     Forall (λ st, course st ∈ course_ids) students ∧
     no_compatible_pair instructors students) →
  create_optimization_model instructors students aircraft_count
    = Returns (model, x) →
  LpStatusOptimal model nobody ∧
  (LpStatusOptimal model (PULP_CBC_CMD model) →
   (∀ i j, (i < length instructors)%nat → (j < length students)%nat →
      PULP_CBC_CMD model (i, j) = 0) ∧
   solve_and_display_results PULP_CBC_CMD model x instructors students
     = Returns ([], 0, Z.of_nat (length students)) ∧
   ∀ instructor_count student_count,
     run_optimization PULP_CBC_CMD aircraft_count instructor_count
       student_count instructors students =
     Returns (input_summary aircraft_count instructor_count student_count
              ++ [st_subheader "Schedule Results"; no_students_assigned])).
Proof.
  intros Hdeg Hm.
  assert (0 ≤ aircraft_count) as Hac by (destruct Hdeg as [->|[? _]]; lia).
  assert (∀ sol i j,
            admissible instructors students aircraft_count sol →
            (i < length instructors)%nat → (j < length students)%nat →
            sol (i, j) = 0) as Hzero.
  { intros sol i j Hadm Hi Hj. destruct Hdeg as [->|(_ & Hcourses & Hnone)].
    - by apply (admissible_no_aircraft instructors students).
    - by apply (admissible_no_compatible_pair instructors students aircraft_count). }
  split.
  - apply (model_optimal _ _ _ _ _ Hm). split; [by apply admissible_nobody|].
    intros sol' Hadm'. rewrite total_nobody.
    unfold total. rewrite Zsum_zero; [done|].
    intros i Hi%elem_of_range. apply Zsum_zero. intros j Hj%elem_of_range.
    by apply Hzero.
  - intros Hopt.
    pose proof (pipeline_admissible _ _ _ _ _ _ Hm Hopt) as Hadm.
    assert (assigned_rows (PULP_CBC_CMD model) instructors students
              (range (length instructors)) (range (length students)) = [])
      as Hrows.
    { apply assigned_rows_nil.
      intros i j Hi%elem_of_range Hj%elem_of_range. by apply Hzero. }
    split_and!.
    + intros i j Hi Hj. by apply Hzero.
    + rewrite (pipeline_returns _ _ _ _ _ _ Hm), Hrows. simpl.
      do 2 f_equal. lia.
    + intros ic sc. by apply (run_optimization_no_rows _ _ _ _ _ _ _ _ Hm).
Qed.

Lemma degenerate_problem_assigns_nobody_witness :
  ∃ model x,
    (1 = 0 ∨
       (0 ≤ 1 ∧
        Forall (λ st, course st ∈ course_ids) [mkStudent 1 2] ∧
        no_compatible_pair course1_instructor [mkStudent 1 2])) ∧
    create_optimization_model course1_instructor [mkStudent 1 2] 1
      = Returns (model, x) ∧
    LpStatusOptimal model nobody ∧
    (LpStatusOptimal model nobody →
     (∀ i j, (i < 1)%nat → (j < 1)%nat → nobody (i, j) = 0) ∧
     solve_and_display_results (λ _, nobody) model x
       course1_instructor [mkStudent 1 2] = Returns ([], 0, 1) ∧
     ∀ instructor_count student_count,
       run_optimization (λ _, nobody) 1 instructor_count
         student_count course1_instructor [mkStudent 1 2] =
       Returns (input_summary 1 instructor_count student_count
                ++ [st_subheader "Schedule Results"; no_students_assigned])).
Proof.
  assert (1 = 0 ∨
          (0 ≤ 1 ∧
           Forall (λ st, course st ∈ course_ids) [mkStudent 1 2] ∧
           no_compatible_pair course1_instructor [mkStudent 1 2])) as Hdeg.
  { right. split_and!; [lia|apply (bool_decide_unpack _); by vm_compute|].
    intros i j Hi Hj. simpl in Hi, Hj.
    assert (i = 0%nat) as -> by lia. assert (j = 0%nat) as -> by lia.
    by apply (bool_decide_unpack _). }
  eexists _, _. refine (conj Hdeg (conj eq_refl _)).
  exact (degenerate_problem_assigns_nobody (λ _, nobody) 1
           course1_instructor [mkStudent 1 2] _ _ Hdeg eq_refl).
Defined.

(** C6, as stated, fails in three ways.  With no aircraft the block reports
    the empty result with [st.error].  A student on course 4 has no
    compatible instructor and is assigned all the same.  With a negative
    capacity and no compatible pair the problem has no optimum at all. *)
Lemma degenerate_problem_claim_fails :
  (∃ model x out,
     create_optimization_model demo_instructors demo_students 0
       = Returns (model, x) ∧
     LpStatusOptimal model nobody ∧
     run_optimization (λ _, nobody) 0 3 3 demo_instructors demo_students
       = Returns out ∧
     last out = Some no_students_assigned) ∧
  (∃ model x results_df,
     no_compatible_pair course1_instructor course4_student ∧
     create_optimization_model course1_instructor course4_student 1
       = Returns (model, x) ∧
     LpStatusOptimal model first_pair ∧
     first_pair (0, 0)%nat = 1 ∧
     solve_and_display_results (λ _, first_pair) model x
       course1_instructor course4_student = Returns (results_df, 1, 0)) ∧
  (∃ model x,
     no_compatible_pair course1_instructor [mkStudent 1 2] ∧
     create_optimization_model course1_instructor [mkStudent 1 2] (-1)
       = Returns (model, x) ∧
     ∀ sol, ¬ LpStatusOptimal model sol).
Proof.
  split_and!.
  - eexists _, _, _. split_and!; [reflexivity| |by vm_compute|].
    + by eapply nobody_optimal_without_aircraft.
    + done.
  - eexists _, _, _. split_and!; [|reflexivity| |done|by vm_compute].
    + intros i j Hi Hj. simpl in Hi, Hj.
      assert (i = 0%nat) as -> by lia. assert (j = 0%nat) as -> by lia.
      by apply (bool_decide_unpack _).
    + by eapply first_pair_optimal.
  - eexists _, _. split_and!; [|reflexivity|].
    + intros i j Hi Hj. simpl in Hi, Hj.
      assert (i = 0%nat) as -> by lia. assert (j = 0%nat) as -> by lia.
      by apply (bool_decide_unpack _).
    + intros sol [Hf _]. revert Hf.
      by apply (negative_capacity_infeasible course1_instructor
                  [mkStudent 1 2] (-1) _ _ eq_refl).
Qed.

(** * Further properties of the program *)

(** ** The input form *)

Lemma foldl_collect {A B C} (F : list B * list C → A → list B * list C)
    (f : A → B) (g : A → list C) (l : list A) bs cs :
  (∀ bs cs a, F (bs, cs) a = (bs ++ [f a], cs ++ g a)) →
  foldl F (bs, cs) l = (bs ++ (f <$> l), cs ++ (l ≫= g)).
Proof.
  intros HF. revert bs cs. induction l as [|a l IH]; intros bs cs.
  - simpl. by rewrite !app_nil_r.
  - cbn [foldl]. rewrite HF, IH, bind_cons, fmap_cons, <- !app_assoc. done.
Qed.

Lemma instructor_form_eq user instructor_count :
  instructor_form user instructor_count =
  (form_instructor user <$> range (Z.to_nat instructor_count),
   range (Z.to_nat instructor_count) ≫= instructor_calls user).
Proof.
  unfold instructor_form.
  rewrite (foldl_collect _ (form_instructor user) (instructor_calls user)); [done|].
  intros bs cs i. unfold instructor_calls, form_instructor. cbn [qualifications].
  by destruct (st_checkbox user true _),
    (st_checkbox user (bool_decide (0 < i)%nat) _),
    (st_checkbox user (bool_decide (1 < i)%nat) _).
Qed.

Lemma student_form_eq user student_count :
  student_form user student_count =
  (form_student user <$> range (Z.to_nat student_count),
   range (Z.to_nat student_count) ≫= student_calls user).
Proof.
  unfold student_form.
  by rewrite (foldl_collect _ (form_student user) (student_calls user)).
Qed.

Lemma instructor_form_records user instructor_count :
  (instructor_form user instructor_count).1 =
  form_instructor user <$> range (Z.to_nat instructor_count).
Proof. by rewrite instructor_form_eq. Qed.

Lemma student_form_records user student_count :
  (student_form user student_count).1 =
  form_student user <$> range (Z.to_nat student_count).
Proof. by rewrite student_form_eq. Qed.

Lemma lookup_total_fmap_range {A} `{!Inhabited A} (f : nat → A) n i :
  (i < n)%nat → (f <$> range n) !!! i = f i.
Proof.
  intros Hi. apply list_lookup_total_correct.
  rewrite list_lookup_fmap. unfold range. by rewrite lookup_seq_lt.
Qed.

Lemma length_fmap_range {A} (f : nat → A) n : length (f <$> range n) = n.
Proof. by rewrite length_fmap, length_range. Qed.

Lemma form_qualifications_sublist user i :
  qualifications (form_instructor user i) `sublist_of` course_ids.
Proof.
  unfold form_instructor, course_ids. simpl.
  destruct (st_checkbox user true _), (st_checkbox user (bool_decide (0 < i)%nat) _),
    (st_checkbox user (bool_decide (1 < i)%nat) _); simpl;
    repeat first [apply sublist_nil | apply sublist_skip | apply sublist_cons].
Qed.

Lemma form_course_listed user i :
  valid_choices user → course (form_student user i) ∈ course_ids.
Proof.
  intros Hvalid. unfold form_student, st_radio, course_ids. cbn [course].
  assert (default (i mod 3)%nat (chosen user i) < 3)%nat as Hp.
  { destruct (chosen user i) as [p|] eqn:E.
    - exact (Hvalid i p E).
    - apply Nat.mod_upper_bound. lia. }
  destruct (default (i mod 3)%nat (chosen user i)) as [|[|[|p]]]; [| | |lia];
    apply list_elem_of_In; simpl; tauto.
Qed.

Lemma elem_of_if_singleton (b : bool) (k c : Z) :
  c ∈ (if b then [k] else []) ↔ c = k ∧ b = true.
Proof.
  destruct b.
  - rewrite list_elem_of_singleton. by split; [|intros [? _]].
  - rewrite elem_of_nil. by split; [|intros [_ ?]].
Qed.

Lemma form_qualifications_elem user i c :
  c ∈ qualifications (form_instructor user i) ↔
  (c = 1 ∧ st_checkbox user true (i, 1%nat) = true) ∨
  (c = 2 ∧ st_checkbox user (bool_decide (0 < i)%nat) (i, 2%nat) = true) ∨
  (c = 3 ∧ st_checkbox user (bool_decide (1 < i)%nat) (i, 3%nat) = true).
Proof.
  unfold form_instructor. cbn [qualifications].
  by rewrite !elem_of_app, !elem_of_if_singleton.
Qed.

(** X1. The instructor loop of the form appends one record per position
    below [instructor_count]; the record at position [i] has [id] [i + 1],
    and its qualifications are the courses whose checkbox is ticked, in
    increasing order and without repetition (a sublist of [1, 2, 3]). *)
Theorem instructor_form_well_formed user instructor_count :
  let instructors := (instructor_form user instructor_count).1 in
  length instructors = Z.to_nat instructor_count ∧
  ∀ i, (i < Z.to_nat instructor_count)%nat →
    instructor_id (instructors !!! i) = Z.of_nat i + 1 ∧
    qualifications (instructors !!! i) `sublist_of` course_ids ∧
    (1 ∈ qualifications (instructors !!! i) ↔
       st_checkbox user true (i, 1%nat) = true) ∧
    (2 ∈ qualifications (instructors !!! i) ↔
       st_checkbox user (bool_decide (0 < i)%nat) (i, 2%nat) = true) ∧
    (3 ∈ qualifications (instructors !!! i) ↔
       st_checkbox user (bool_decide (1 < i)%nat) (i, 3%nat) = true).
Proof.
  intros instructors. unfold instructors. rewrite instructor_form_records.
  split; [apply length_fmap_range|]. intros i Hi.
  rewrite lookup_total_fmap_range by done.
  split_and!; [done|apply form_qualifications_sublist|..];
    rewrite form_qualifications_elem;
    (split; [intros [[? ?]|[[? ?]|[? ?]]]; done || lia|intros ?]).
  - by left.
  - right; by left.
  - right; by right.
Qed.

(** X2. When every radio holds one of its three positions, the student loop
    of the form appends one record per position below [student_count]; the
    record at position [i] has [id] [i + 1] and a course that is 1, 2 or 3:
    the option at the chosen position, or at position [i % 3] when the radio
    was left as it is. *)
Theorem student_form_well_formed user student_count :
  valid_choices user →
  let students := (student_form user student_count).1 in
  length students = Z.to_nat student_count ∧
  Forall (λ st, course st ∈ course_ids) students ∧
  ∀ i, (i < Z.to_nat student_count)%nat →
    student_id (students !!! i) = Z.of_nat i + 1 ∧
    course (students !!! i) ∈ course_ids ∧
    [1; 2; 3] !! default (i mod 3)%nat (chosen user i)
      = Some (course (students !!! i)).
Proof.
  intros Hvalid students. unfold students. rewrite student_form_records.
  split_and!.
  - apply length_fmap_range.
  - apply Forall_fmap, Forall_forall. intros i _. by apply form_course_listed.
  - intros i Hi. rewrite lookup_total_fmap_range by done.
    split_and!; [done|by apply form_course_listed|].
    unfold form_student, st_radio. cbn [course].
    apply list_lookup_lookup_total_lt. change (length [1; 2; 3]) with 3%nat.
    destruct (chosen user i) as [p|] eqn:E.
    + exact (Hvalid i p E).
    + apply Nat.mod_upper_bound. lia.
Qed.

Lemma some_user_valid : valid_choices some_user.
Proof.
  intros i p. unfold some_user. cbn [chosen].
  case_bool_decide; [|done]. intros [= <-]. lia.
Qed.

Lemma student_form_well_formed_witness :
  valid_choices some_user ∧
  (student_form some_user 3).1
    = [mkStudent 1 1; mkStudent 2 3; mkStudent 3 3] ∧
  (let students := (student_form some_user 3).1 in
   length students = Z.to_nat 3 ∧
   Forall (λ st, course st ∈ course_ids) students ∧
   ∀ i, (i < Z.to_nat 3)%nat →
     student_id (students !!! i) = Z.of_nat i + 1 ∧
     course (students !!! i) ∈ course_ids ∧
     [1; 2; 3] !! default (i mod 3)%nat (chosen some_user i)
       = Some (course (students !!! i))).
Proof.
  split; [exact some_user_valid|]. split; [by vm_compute|].
  exact (student_form_well_formed some_user 3 some_user_valid).
Defined.

(** ** Solutions that are feasible without being optimal *)

Section feasible_solutions.
Variables (instructors : list instructor) (students : list student).
Variable aircraft_count : Z.
Variables (model : LpProblem) (x : gmap (nat * nat) LpVariable).
Variable PULP_CBC_CMD : solver.
Hypothesis Hcourses : Forall (λ st, course st ∈ course_ids) students.
Hypothesis Hmodel :
  create_optimization_model instructors students aircraft_count
    = Returns (model, x).
Hypothesis Hadm :
  admissible instructors students aircraft_count (PULP_CBC_CMD model).
Variables (results_df : list result_row) (assigned unassigned : Z).
Hypothesis Hresults :
  solve_and_display_results PULP_CBC_CMD model x instructors students
    = Returns (results_df, assigned, unassigned).

Lemma admissible_qualified i j :
  (i < length instructors)%nat → (j < length students)%nat →
  PULP_CBC_CMD model (i, j) = 1 →
  course (students !!! j) ∈ qualifications (instructors !!! i).
Proof.
  intros Hi Hj Hs.
  destruct (decide (course (students !!! j)
                      ∈ qualifications (instructors !!! i))) as [|Hnot]; [done|].
  assert (PULP_CBC_CMD model (i, j) = 0); [|lia].
  apply (adm_qualification _ _ _ _ Hadm); try done. split; [|done].
  rewrite Forall_forall in Hcourses. apply Hcourses.
  apply list_elem_of_lookup. exists j. by apply list_lookup_lookup_total_lt.
Qed.

Lemma admissible_assigned_total :
  assigned = total (PULP_CBC_CMD model)
               (range (length instructors)) (range (length students)).
Proof.
  rewrite (pipeline_assigned _ _ _ _ _ _ Hmodel _ _ _ Hresults).
  rewrite (pipeline_rows _ _ _ _ _ _ Hmodel _ _ _ Hresults).
  apply length_assigned_rows.
  intros i j Hi%elem_of_range Hj%elem_of_range. by apply Hadm.
Qed.

Lemma admissible_invariants :
  assignment_invariants instructors students aircraft_count x
    (PULP_CBC_CMD model) results_df.
Proof.
  pose proof (pipeline_rows _ _ _ _ _ _ Hmodel _ _ _ Hresults) as Hrows.
  assert (NoDup results_df) as Hnd
    by (rewrite Hrows; apply NoDup_assigned_rows; apply NoDup_range).
  split.
  - apply NoDup_fmap_2_strong; [|done]. rewrite Hrows. intros r r'
      (i & j & Hi & Hj & Hs & ->)%elem_of_assigned_rows
      (i' & j' & Hi' & Hj' & Hs' & ->)%elem_of_assigned_rows E.
    simpl in E. assert (i = i') as <- by lia.
    by rewrite (adm_one_student_per_instructor _ _ _ _ Hadm i j j').
  - apply NoDup_fmap_2_strong; [|done]. rewrite Hrows. intros r r'
      (i & j & Hi & Hj & Hs & ->)%elem_of_assigned_rows
      (i' & j' & Hi' & Hj' & Hs' & ->)%elem_of_assigned_rows E.
    simpl in E. assert (j = j') as <- by lia.
    by rewrite (adm_one_instructor_per_student _ _ _ _ Hadm i i' j).
  - rewrite Hrows.
    intros r (i & j & Hi%elem_of_range & Hj%elem_of_range & Hs & ->)%elem_of_assigned_rows.
    exists i, j, (instructors !!! i), (students !!! j).
    split_and!; try done; try by apply list_lookup_lookup_total_lt.
    by apply admissible_qualified.
  - rewrite <- (pipeline_assigned _ _ _ _ _ _ Hmodel _ _ _ Hresults).
    rewrite admissible_assigned_total. by apply adm_total_le_aircraft.
  - intros [i j] v Hv. rewrite (model_x _ _ _ _ _ Hmodel) in Hv.
    apply decision_variables_dom in Hv as (Hi & Hj & ->). simpl in *.
    by apply (adm_zero_or_one _ _ _ _ Hadm).
Qed.

Lemma admissible_valid_pairs :
  valid_assignment instructors students aircraft_count (pairs_of results_df).
Proof.
  rewrite (pipeline_rows _ _ _ _ _ _ Hmodel _ _ _ Hresults). split.
  - apply NoDup_pairs_of_assigned_rows; apply NoDup_range.
  - intros i j (Hi & Hj & _)%elem_of_pairs_of_assigned_rows.
    by apply elem_of_range in Hi, Hj.
  - intros i j j' (Hi & Hj & Hs)%elem_of_pairs_of_assigned_rows
      (_ & Hj' & Hs')%elem_of_pairs_of_assigned_rows.
    by apply (adm_one_student_per_instructor _ _ _ _ Hadm i).
  - intros i i' j (Hi & Hj & Hs)%elem_of_pairs_of_assigned_rows
      (Hi' & _ & Hs')%elem_of_pairs_of_assigned_rows.
    by apply (adm_one_instructor_per_student _ _ _ _ Hadm i i' j).
  - intros i j (Hi%elem_of_range & Hj%elem_of_range & Hs)%elem_of_pairs_of_assigned_rows.
    by apply admissible_qualified.
  - unfold pairs_of. rewrite length_fmap.
    rewrite <- (pipeline_rows _ _ _ _ _ _ Hmodel _ _ _ Hresults).
    rewrite <- (pipeline_assigned _ _ _ _ _ _ Hmodel _ _ _ Hresults).
    rewrite admissible_assigned_total. by apply adm_total_le_aircraft.
Qed.
End feasible_solutions.

(** X3. The invariants do not need an optimum: if the solver stops on
    values that are only feasible (within the bounds of the variables and
    satisfying every constraint), and every student's course is one of
    [course_ids], the rows returned still satisfy the five invariants, and
    the assigned count is between 0 and the three ceilings. *)
Theorem feasible_assignment_invariants
    instructors students aircraft_count PULP_CBC_CMD model x
    results_df assigned unassigned :
  Forall (λ st, course st ∈ course_ids) students →
  create_optimization_model instructors students aircraft_count
    = Returns (model, x) →
  feasible model (PULP_CBC_CMD model) →
  solve_and_display_results PULP_CBC_CMD model x instructors students
    = Returns (results_df, assigned, unassigned) →
  assignment_invariants instructors students aircraft_count x
    (PULP_CBC_CMD model) results_df ∧
  0 ≤ assigned ≤ Z.min (Z.min (Z.of_nat (length instructors))
                              (Z.of_nat (length students)))
                       aircraft_count.
Proof.
  intros Hcourses Hm Hadm%(model_feasible _ _ _ _ _ Hm) Hres. split.
  - by apply (admissible_invariants instructors students aircraft_count model x
                PULP_CBC_CMD Hcourses Hm Hadm results_df assigned unassigned).
  - rewrite (admissible_assigned_total _ _ _ _ _ _ Hm Hadm _ _ _ Hres).
    pose proof (adm_total_nonneg _ _ _ _ Hadm).
    pose proof (adm_total_le_instructors _ _ _ _ Hadm).
    pose proof (adm_total_le_students _ _ _ _ Hadm).
    pose proof (adm_total_le_aircraft _ _ _ _ Hadm). lia.
Qed.

Lemma feasible_assignment_invariants_witness :
  ∃ model x results_df,
    Forall (λ st, course st ∈ course_ids) demo_students ∧
    create_optimization_model demo_instructors demo_students 3
      = Returns (model, x) ∧
    feasible model first_pair ∧
    ¬ LpStatusOptimal model first_pair ∧
    solve_and_display_results (λ _, first_pair) model x
      demo_instructors demo_students = Returns (results_df, 1, 2) ∧
    (assignment_invariants demo_instructors demo_students 3 x
       first_pair results_df ∧
     0 ≤ 1 ≤ Z.min (Z.min 3 3) 3).
Proof.
  assert (admissible demo_instructors demo_students 3 first_pair) as Hadm
    by (apply admissible_check_correct, (bool_decide_unpack _); by vm_compute).
  eexists _, _, _.
  refine (conj _ (conj _ (conj _ (conj _ (conj _ _))))).
  - apply (bool_decide_unpack _). by vm_compute.
  - reflexivity.
  - by eapply model_feasible.
  - intros [_ Hmax]. specialize (Hmax diagonal).
    rewrite (model_feasible _ _ _ _ _ eq_refl) in Hmax.
    specialize (Hmax demo_admissible). vm_compute in Hmax. by apply Hmax.
  - by vm_compute.
  - eapply (feasible_assignment_invariants demo_instructors demo_students 3
              (λ _, first_pair)).
    + apply (bool_decide_unpack _). by vm_compute.
    + reflexivity.
    + by eapply model_feasible.
    + by vm_compute.
Defined.

(** ** What the block displays and when it stops *)

Lemma run_optimization_cases PULP_CBC_CMD aircraft_count instructor_count
    student_count instructors students model x :
  create_optimization_model instructors students aircraft_count
    = Returns (model, x) →
  let results_df := assigned_rows (PULP_CBC_CMD model) instructors students
                      (range (length instructors)) (range (length students)) in
  let assigned := Z.of_nat (length results_df) in
  let unassigned := Z.of_nat (length students) - assigned in
  run_optimization PULP_CBC_CMD aircraft_count instructor_count student_count
    instructors students =
  if bool_decide (assigned > 0) then
    if bool_decide (instructor_count = 0) then Raises ZeroDivisionError
    else if bool_decide (aircraft_count = 0) then Raises ZeroDivisionError
    else Returns (success_calls aircraft_count instructor_count student_count
                    students results_df assigned unassigned)
  else Returns (input_summary aircraft_count instructor_count student_count
                ++ [st_subheader "Schedule Results"; no_students_assigned]).
Proof.
  intros Hm results_df assigned unassigned. unfold run_optimization.
  rewrite Hm, Returns_bind, (pipeline_returns _ _ _ _ _ _ Hm), Returns_bind.
  fold results_df. fold assigned. fold unassigned. cbv zeta.
  destruct (bool_decide (assigned > 0)); [|by rewrite <- app_assoc].
  unfold truediv.
  destruct (bool_decide (instructor_count = 0)); [done|]. rewrite Returns_bind.
  destruct (bool_decide (aircraft_count = 0)); [done|]. rewrite Returns_bind.
  unfold success_calls.
  destruct (bool_decide (unassigned > 0)); [done|by rewrite app_nil_r].
Qed.

Lemma assigned_rows_nonempty sol instructors students I J :
  Z.of_nat (length (assigned_rows sol instructors students I J)) > 0 ↔
  ∃ i j, i ∈ I ∧ j ∈ J ∧ sol (i, j) = 1.
Proof.
  split.
  - destruct (assigned_rows sol instructors students I J) as [|r l] eqn:E;
      [simpl; lia|]. intros _.
    assert (r ∈ assigned_rows sol instructors students I J) as Hr
      by (rewrite E; apply list_elem_of_here).
    apply elem_of_assigned_rows in Hr as (i & j & ? & ? & ? & _). by exists i, j.
  - intros (i & j & Hi & Hj & Hs).
    assert (row_of instructors students i j
              ∈ assigned_rows sol instructors students I J) as Hr
      by (apply elem_of_assigned_rows; by exists i, j).
    destruct (assigned_rows sol instructors students I J);
      [by apply elem_of_nil in Hr|simpl; lia].
Qed.

(** X4. On the problem it has built, the block raises [ZeroDivisionError]
    exactly when some variable has value 1 while [instructor_count] or
    [aircraft_count] is 0; in every other case it returns, whatever values
    the solver has left. *)
Theorem run_optimization_division_by_zero
    PULP_CBC_CMD aircraft_count instructor_count student_count
    instructors students model x :
  create_optimization_model instructors students aircraft_count
    = Returns (model, x) →
  (run_optimization PULP_CBC_CMD aircraft_count instructor_count student_count
     instructors students = Raises ZeroDivisionError ↔
   (instructor_count = 0 ∨ aircraft_count = 0) ∧
   ∃ i j, (i < length instructors)%nat ∧ (j < length students)%nat ∧
          PULP_CBC_CMD model (i, j) = 1) ∧
  (run_optimization PULP_CBC_CMD aircraft_count instructor_count student_count
     instructors students ≠ Raises ZeroDivisionError →
   ∃ out,
     run_optimization PULP_CBC_CMD aircraft_count instructor_count student_count
       instructors students = Returns out).
Proof.
  intros Hm. rewrite (run_optimization_cases _ _ _ _ _ _ _ _ Hm). cbv zeta.
  pose proof (assigned_rows_nonempty (PULP_CBC_CMD model) instructors students
                (range (length instructors)) (range (length students))) as Hne.
  setoid_rewrite elem_of_range in Hne.
  destruct (bool_decide_reflect (Z.of_nat (length (assigned_rows
    (PULP_CBC_CMD model) instructors students (range (length instructors))
    (range (length students)))) > 0)) as [Hpos|Hzero].
  - apply Hne in Hpos.
    destruct (bool_decide_reflect (instructor_count = 0)) as [Hi|Hi].
    { split; [|done]. split; [intros _; split; [by left|done]|done]. }
    destruct (bool_decide_reflect (aircraft_count = 0)) as [Ha|Ha].
    { split; [|done]. split; [intros _; split; [by right|done]|done]. }
    split; [|intros _; by eexists].
    split; [done|]. intros [[?|?] _]; done.
  - split; [|intros _; by eexists].
    split; [done|]. intros [_ Hex]. by apply Hne in Hex.
Qed.

Lemma run_optimization_division_by_zero_witness :
  ∃ model x,
    create_optimization_model demo_instructors demo_students 3
      = Returns (model, x) ∧
    run_optimization (λ _, diagonal) 3 0 3 demo_instructors demo_students
      = Raises ZeroDivisionError ∧
    ((run_optimization (λ _, diagonal) 3 0 3 demo_instructors demo_students
        = Raises ZeroDivisionError ↔
      (0 = 0 ∨ 3 = 0) ∧
      ∃ i j, (i < 3)%nat ∧ (j < 3)%nat ∧ diagonal (i, j) = 1) ∧
     (run_optimization (λ _, diagonal) 3 0 3 demo_instructors demo_students
        ≠ Raises ZeroDivisionError →
      ∃ out,
        run_optimization (λ _, diagonal) 3 0 3 demo_instructors demo_students
          = Returns out)).
Proof.
  eexists _, _. refine (conj _ (conj _ _)).
  - reflexivity.
  - by vm_compute.
  - exact (run_optimization_division_by_zero (λ _, diagonal) 3 0 3
             demo_instructors demo_students _ _ eq_refl).
Defined.

(** X5. After a solve that ends with an optimum, with [instructor_count] the
    number of instructors as in the form, the block raises nothing; and when
    it reaches the two divisions ([assigned_students > 0]) both divisors are
    positive and at least [assigned_students]. *)
Theorem run_optimization_after_optimum
    PULP_CBC_CMD aircraft_count student_count instructors students model x
    results_df assigned unassigned :
  create_optimization_model instructors students aircraft_count
    = Returns (model, x) →
  LpStatusOptimal model (PULP_CBC_CMD model) →
  solve_and_display_results PULP_CBC_CMD model x instructors students
    = Returns (results_df, assigned, unassigned) →
  (∃ out,
     run_optimization PULP_CBC_CMD aircraft_count
       (Z.of_nat (length instructors)) student_count instructors students
       = Returns out) ∧
  (assigned > 0 →
     0 < assigned ≤ Z.of_nat (length instructors) ∧
     assigned ≤ aircraft_count).
Proof.
  intros Hm Hopt Hres.
  pose proof (pipeline_admissible _ _ _ _ _ _ Hm Hopt) as Hadm.
  pose proof (pipeline_rows _ _ _ _ _ _ Hm _ _ _ Hres) as Hrows.
  pose proof (pipeline_assigned _ _ _ _ _ _ Hm _ _ _ Hres) as Hassigned.
  pose proof (adm_total_le_instructors _ _ _ _ Hadm) as Hn.
  pose proof (adm_total_le_aircraft _ _ _ _ Hadm) as Ha.
  rewrite <- (pipeline_assigned_total _ _ _ _ _ _ Hm _ _ _ Hres Hopt) in Hn, Ha.
  split; [|lia].
  rewrite (run_optimization_cases _ _ _ _ _ _ _ _ Hm). cbv zeta.
  rewrite <- Hrows, <- Hassigned.
  case_bool_decide; [|by eexists].
  rewrite !bool_decide_eq_false_2 by lia. by eexists.
Qed.

Lemma run_optimization_after_optimum_witness :
  ∃ model x results_df,
    create_optimization_model demo_instructors demo_students 2
      = Returns (model, x) ∧
    LpStatusOptimal model crossed ∧
    solve_and_display_results (λ _, crossed) model x
      demo_instructors demo_students = Returns (results_df, 2, 1) ∧
    ((∃ out,
        run_optimization (λ _, crossed) 2
          (Z.of_nat (length demo_instructors)) 3
          demo_instructors demo_students = Returns out) ∧
     (2 > 0 → 0 < 2 ≤ Z.of_nat (length demo_instructors) ∧ 2 ≤ 2)).
Proof.
  eexists _, _, _.
  refine (conj _ (conj _ (conj _ _))).
  - reflexivity.
  - eapply optimal_at_ceiling; [reflexivity|apply crossed_admissible|by vm_compute].
  - by vm_compute.
  - eapply (run_optimization_after_optimum (λ _, crossed) 2 3
              demo_instructors demo_students).
    + reflexivity.
    + eapply optimal_at_ceiling; [reflexivity|apply crossed_admissible|by vm_compute].
    + by vm_compute.
Defined.

(** ** The table of unassigned students *)

Lemma length_bind_filter {A B} (P : A → Prop) `{∀ a, Decision (P a)}
    (row : A → B) (l : list A) :
  length (a ← l; if bool_decide (P a) then [row a] else []) =
  length (filter P l).
Proof.
  induction l as [|a l IH]; [done|].
  rewrite bind_cons, length_app, IH, filter_cons.
  case_bool_decide; by destruct (decide (P a)).
Qed.

Lemma length_filter_complement {A} (P : A → Prop) `{∀ a, Decision (P a)}
    (l : list A) :
  (length (filter P l) + length (filter (λ a, ¬ P a) l) = length l)%nat.
Proof.
  rewrite <- length_app. apply Permutation_length, filter_app_complement.
Qed.

(** The positions whose number is in a duplicate-free column of numbers
    between 1 and [m] are as many as the column is long. *)
Lemma length_filter_listed (ids : list Z) (m : nat) :
  NoDup ids →
  (∀ z, z ∈ ids → ∃ j, (j < m)%nat ∧ z = Z.of_nat j + 1) →
  length (filter (λ j, ¬ (Z.of_nat j + 1 ∉ ids)) (range m)) = length ids.
Proof.
  intros Hnd Hin.
  rewrite <- (length_fmap (λ j, Z.of_nat j + 1)).
  apply Permutation_length, NoDup_Permutation; [|done|].
  - apply NoDup_fmap_2_strong; [intros; lia|].
    apply NoDup_filter, NoDup_range.
  - intros z. rewrite list_elem_of_fmap. split.
    + intros (j & E & Hf). subst z.
      apply list_elem_of_filter in Hf as [Hj _].
      by destruct (decide (Z.of_nat j + 1 ∈ ids)).
    + intros Hz. destruct (Hin z Hz) as (j & Hj & ->). exists j. split; [done|].
      apply list_elem_of_filter. split; [by intros []|by apply elem_of_range].
Qed.

Lemma elem_of_unassigned_table students results_df r :
  r ∈ unassigned_table students results_df ↔
  ∃ j, (j < length students)%nat ∧
       (Z.of_nat j + 1 ∉ Student_ID <$> results_df) ∧
       r = {| Unassigned_Student_ID := Z.of_nat j + 1;
              Unassigned_Course := course (students !!! j) |}.
Proof.
  unfold unassigned_table. rewrite list_elem_of_bind. split.
  - intros (j & Hr & Hj%elem_of_range). exists j.
    case_bool_decide; [|by apply elem_of_nil in Hr].
    by apply list_elem_of_singleton in Hr.
  - intros (j & Hj & Hnot & ->). exists j. rewrite bool_decide_eq_true_2 by done.
    split; [by apply list_elem_of_singleton|by apply elem_of_range].
Qed.

Lemma run_optimization_unassigned_table PULP_CBC_CMD aircraft_count
    instructor_count student_count instructors students model x out t :
  create_optimization_model instructors students aircraft_count
    = Returns (model, x) →
  run_optimization PULP_CBC_CMD aircraft_count instructor_count student_count
    instructors students = Returns out →
  st_dataframe_unassigned t ∈ out →
  t = unassigned_table students
        (assigned_rows (PULP_CBC_CMD model) instructors students
           (range (length instructors)) (range (length students))).
Proof.
  intros Hm Hrun Ht. rewrite (run_optimization_cases _ _ _ _ _ _ _ _ Hm) in Hrun.
  cbv zeta in Hrun.
  destruct (bool_decide (_ > 0)).
  - destruct (bool_decide (instructor_count = 0)); [discriminate Hrun|].
    destruct (bool_decide (aircraft_count = 0)); [discriminate Hrun|].
    injection Hrun as <-. unfold success_calls, input_summary in Ht.
    rewrite !elem_of_app in Ht. destruct Ht as [[[[H|H]|H]|H]|H];
      try (repeat (apply elem_of_cons in H as [H|H]; [discriminate H|]);
           by apply elem_of_nil in H).
    destruct (bool_decide _); [|by apply elem_of_nil in H].
    apply elem_of_cons in H as [H|H]; [discriminate H|].
    apply elem_of_cons in H as [[= ->]|H]; [done|by apply elem_of_nil in H].
  - injection Hrun as <-. rename Ht into H. unfold no_students_assigned in H.
    repeat (apply elem_of_cons in H as [H|H]; [discriminate H|]).
    by apply elem_of_nil in H.
Qed.

(** X6. After a solve whose values are feasible, the table of unassigned
    students that the block displays has exactly [unassigned_students] rows,
    so it agrees with the count in the warning; it lists, with their courses,
    the students who are in no row of the results, each once; and the count
    is not negative. *)
Theorem unassigned_table_matches_count
    instructors students aircraft_count PULP_CBC_CMD model x
    results_df assigned unassigned :
  create_optimization_model instructors students aircraft_count
    = Returns (model, x) →
  feasible model (PULP_CBC_CMD model) →
  solve_and_display_results PULP_CBC_CMD model x instructors students
    = Returns (results_df, assigned, unassigned) →
  (∀ instructor_count student_count out t,
     run_optimization PULP_CBC_CMD aircraft_count instructor_count
       student_count instructors students = Returns out →
     st_dataframe_unassigned t ∈ out →
     t = unassigned_table students results_df) ∧
  Z.of_nat (length (unassigned_table students results_df)) = unassigned ∧
  0 ≤ unassigned ∧
  NoDup (unassigned_table students results_df) ∧
  ∀ j, (j < length students)%nat →
    ({| Unassigned_Student_ID := Z.of_nat j + 1;
        Unassigned_Course := course (students !!! j) |}
       ∈ unassigned_table students results_df ↔
     ∀ i, (i < length instructors)%nat → PULP_CBC_CMD model (i, j) ≠ 1).
Proof.
  intros Hm Hadm%(model_feasible _ _ _ _ _ Hm) Hres.
  pose proof (pipeline_rows _ _ _ _ _ _ Hm _ _ _ Hres) as Hrows.
  pose proof (pipeline_assigned _ _ _ _ _ _ Hm _ _ _ Hres) as Ha.
  pose proof (pipeline_unassigned _ _ _ _ _ _ Hm _ _ _ Hres) as Hu.
  assert (∀ j, Z.of_nat j + 1 ∈ Student_ID <$> results_df ↔
            ∃ i, (i < length instructors)%nat ∧ (j < length students)%nat ∧
                 PULP_CBC_CMD model (i, j) = 1) as Hids.
  { intros j. rewrite Hrows, list_elem_of_fmap. split.
    - intros (r & E & (i & j' & Hi%elem_of_range & Hj%elem_of_range & Hs & ->)%elem_of_assigned_rows).
      simpl in E. assert (j = j') as -> by lia. by exists i.
    - intros (i & Hi & Hj & Hs). exists (row_of instructors students i j).
      split; [done|]. apply elem_of_assigned_rows.
      exists i, j. by rewrite !elem_of_range. }
  assert (NoDup (Student_ID <$> results_df)) as Hnd.
  { apply NoDup_fmap_2_strong;
      [|rewrite Hrows; apply NoDup_assigned_rows; apply NoDup_range].
    rewrite Hrows. intros r r'
      (i & j & Hi & Hj & Hs & ->)%elem_of_assigned_rows
      (i' & j' & Hi' & Hj' & Hs' & ->)%elem_of_assigned_rows E.
    simpl in E. assert (j = j') as <- by lia.
    by rewrite (adm_one_instructor_per_student _ _ _ _ Hadm i i' j). }
  assert (length (unassigned_table students results_df) + length results_df
          = length students)%nat as Hlen.
  { unfold unassigned_table.
    rewrite (length_bind_filter (λ j, Z.of_nat j + 1 ∉ Student_ID <$> results_df)).
    rewrite <- (length_fmap Student_ID results_df).
    rewrite <- (length_filter_listed (Student_ID <$> results_df) (length students));
      [|done|].
    - rewrite length_filter_complement. apply length_range.
    - intros z (r & -> & Hr)%list_elem_of_fmap. rewrite Hrows in Hr.
      apply elem_of_assigned_rows in Hr as (i & j & _ & Hj%elem_of_range & _ & ->).
      by exists j. }
  split_and!.
  - intros ic sc out t Hrun Ht. rewrite Hrows.
    by apply (run_optimization_unassigned_table PULP_CBC_CMD aircraft_count
                ic sc instructors students model x out).
  - lia.
  - lia.
  - unfold unassigned_table. apply NoDup_bind; [| |apply NoDup_range].
    + intros j j' r _ _ Hr Hr'.
      destruct (bool_decide (Z.of_nat j + 1 ∉ _)); [|by apply elem_of_nil in Hr].
      destruct (bool_decide (Z.of_nat j' + 1 ∉ _)); [|by apply elem_of_nil in Hr'].
      apply list_elem_of_singleton in Hr as ->.
      apply list_elem_of_singleton in Hr'. injection Hr' as E _. lia.
    + intros j _. destruct (bool_decide _); [apply NoDup_singleton|apply NoDup_nil_2].
  - intros j Hj. rewrite elem_of_unassigned_table. split.
    + intros (j' & _ & Hnot & [= E _]) i Hi Hs.
      assert (j' = j) as -> by lia. apply Hnot, Hids. by exists i.
    + intros Hnone. exists j. split_and!; [done| |done].
      intros (i & Hi & _ & Hs)%Hids. by apply (Hnone i).
Qed.

Lemma unassigned_table_matches_count_witness :
  ∃ model x results_df,
    create_optimization_model demo_instructors demo_students 2
      = Returns (model, x) ∧
    feasible model crossed ∧
    solve_and_display_results (λ _, crossed) model x
      demo_instructors demo_students = Returns (results_df, 2, 1) ∧
    unassigned_table demo_students results_df
      = [ {| Unassigned_Student_ID := 3; Unassigned_Course := 3 |} ] ∧
    ((∀ instructor_count student_count out t,
        run_optimization (λ _, crossed) 2 instructor_count
          student_count demo_instructors demo_students = Returns out →
        st_dataframe_unassigned t ∈ out →
        t = unassigned_table demo_students results_df) ∧
     Z.of_nat (length (unassigned_table demo_students results_df)) = 1 ∧
     0 ≤ 1 ∧
     NoDup (unassigned_table demo_students results_df) ∧
     ∀ j, (j < length demo_students)%nat →
       ({| Unassigned_Student_ID := Z.of_nat j + 1;
           Unassigned_Course := course (demo_students !!! j) |}
          ∈ unassigned_table demo_students results_df ↔
        ∀ i, (i < length demo_instructors)%nat → crossed (i, j) ≠ 1)).
Proof.
  eexists _, _, _.
  refine (conj _ (conj _ (conj _ (conj _ _)))).
  - reflexivity.
  - eapply model_feasible; [reflexivity|apply crossed_admissible].
  - by vm_compute.
  - by vm_compute.
  - eapply (unassigned_table_matches_count demo_instructors demo_students 2
              (λ _, crossed)).
    + reflexivity.
    + eapply model_feasible; [reflexivity|apply crossed_admissible].
    + by vm_compute.
Defined.

(** ** A dictionary without a key *)

Lemma for_each_returns {A St} (body : St → A → outcome St) (l : list A) :
  (∀ st a, a ∈ l → ∃ st', body st a = Returns st') →
  ∀ st, ∃ st', for_each body st l = Returns st'.
Proof.
  induction l as [|a l IH]; intros Hbody st; [by eexists|].
  cbn [for_each].
  destruct (Hbody st a (list_elem_of_here _ _)) as [st' ->].
  rewrite Returns_bind. apply IH.
  intros st'' b Hb. by apply Hbody, list_elem_of_further.
Qed.

Lemma for_each_raises {A St} (body : St → A → outcome St) (l : list A) e :
  (∀ st a, a ∈ l → (∃ st', body st a = Returns st') ∨ body st a = Raises e) →
  (∃ a, a ∈ l ∧ ∀ st, body st a = Raises e) →
  ∀ st, for_each body st l = Raises e.
Proof.
  induction l as [|a l IH]; intros Hbody (b & Hb & Hraise) st;
    [by apply elem_of_nil in Hb|].
  cbn [for_each].
  destruct (Hbody st a (list_elem_of_here _ _)) as [[st' E]|E]; rewrite E; [|done].
  rewrite Returns_bind. apply elem_of_cons in Hb as [->|Hb].
  - by rewrite Hraise in E.
  - apply IH; [|by exists b].
    intros st'' c Hc. by apply Hbody, list_elem_of_further.
Qed.

Section missing_key.
Variables (instructors : list instructor) (students : list student).
Variables (x : gmap (nat * nat) LpVariable) (sol : valuation).

Let inner (i : nat) := λ '(results, assigned_students) (j : nat),
  match x !! (i, j) with
  | None => Raises KeyError
  | Some v =>
      if bool_decide (sol (name v) = 1) then
        Returns (results ++ [
          {| Instructor_ID := Z.of_nat i + 1;
             Instructor_Qualifications :=
               py_str_list (qualifications (instructors !!! i));
             Student_ID := Z.of_nat j + 1;
             Student_Course := course (students !!! j) |}],
          assigned_students + 1)
      else Returns (results, assigned_students)
  end.

Lemma inner_outcome i j (st : list result_row * Z) :
  (is_Some (x !! (i, j)) ∧ ∃ st', inner i st j = Returns st') ∨
  (x !! (i, j) = None ∧ inner i st j = Raises KeyError).
Proof.
  destruct st as [results assigned_students]. unfold inner.
  destruct (x !! (i, j)) as [v|]; [left|by right].
  split; [by eexists|]. destruct (bool_decide _); by eexists.
Qed.

Lemma inner_loop_outcome i (st : list result_row * Z) :
  ((∀ j, (j < length students)%nat → is_Some (x !! (i, j))) ∧
   ∃ st', for_each (inner i) st (range (length students)) = Returns st') ∨
  ((∃ j, (j < length students)%nat ∧ x !! (i, j) = None) ∧
   for_each (inner i) st (range (length students)) = Raises KeyError).
Proof.
  destruct (decide (Forall (λ j, is_Some (x !! (i, j)))
                      (range (length students)))) as [Hall|Hnot].
  - left. rewrite Forall_forall in Hall. split.
    + intros j Hj%elem_of_range. by apply Hall.
    + apply for_each_returns. intros st' j Hj.
      destruct (inner_outcome i j st') as [[_ ?]|[Hn _]]; [done|].
      destruct (Hall j Hj) as [v Hv]. by rewrite Hv in Hn.
  - right. apply not_Forall_Exists in Hnot; [|apply _].
    apply Exists_exists in Hnot as (j & Hj & Hnone%eq_None_not_Some).
    split; [exists j; by rewrite <- elem_of_range|].
    apply for_each_raises.
    + intros st' j' _.
      destruct (inner_outcome i j' st') as [[_ ?]|[_ ?]]; [by left|by right].
    + exists j. split; [done|]. intros st'.
      destruct (inner_outcome i j st') as [[[v Hv] _]|[_ ?]]; [|done].
      by rewrite Hv in Hnone.
Qed.

Lemma loops_outcome (st : list result_row * Z) :
  ((∀ i j, (i < length instructors)%nat → (j < length students)%nat →
      is_Some (x !! (i, j))) ∧
   ∃ st', for_each (λ st i, for_each (inner i) st (range (length students)))
            st (range (length instructors)) = Returns st') ∨
  ((∃ i j, (i < length instructors)%nat ∧ (j < length students)%nat ∧
      x !! (i, j) = None) ∧
   for_each (λ st i, for_each (inner i) st (range (length students)))
     st (range (length instructors)) = Raises KeyError).
Proof.
  destruct (decide (Forall (λ i, Forall (λ j, is_Some (x !! (i, j)))
                                  (range (length students)))
                      (range (length instructors)))) as [Hall|Hnot].
  - left. rewrite Forall_forall in Hall.
    assert (∀ i j, (i < length instructors)%nat → (j < length students)%nat →
              is_Some (x !! (i, j))) as Hsome.
    { intros i j Hi%elem_of_range Hj%elem_of_range.
      specialize (Hall i Hi). rewrite Forall_forall in Hall. by apply Hall. }
    split; [done|]. apply for_each_returns. intros st' i Hi%elem_of_range.
    destruct (inner_loop_outcome i st') as [[_ ?]|[(j & Hj & Hn) _]]; [done|].
    destruct (Hsome i j Hi Hj) as [v Hv]. by rewrite Hv in Hn.
  - right. apply not_Forall_Exists in Hnot; [|apply _].
    apply Exists_exists in Hnot as (i & Hi & Hnot).
    apply not_Forall_Exists in Hnot; [|apply _].
    apply Exists_exists in Hnot as (j & Hj & Hnone%eq_None_not_Some).
    split; [exists i, j; by rewrite <- !elem_of_range|].
    apply for_each_raises.
    + intros st' i' _.
      destruct (inner_loop_outcome i' st') as [[_ ?]|[_ ?]]; [by left|by right].
    + exists i. split; [done|]. intros st'.
      destruct (inner_loop_outcome i st') as [[Hall _]|[_ ?]]; [|done].
      apply elem_of_range in Hj. destruct (Hall j Hj) as [v Hv].
      by rewrite Hv in Hnone.
Qed.
End missing_key.

(** X7. [solve_and_display_results] raises [KeyError] exactly when the
    dictionary it is given lacks the key of some pair of positions; with
    every key present it returns, whatever the variables stored and the
    values left by the solver. *)
Theorem solve_and_display_results_key_error
    (PULP_CBC_CMD : solver) (model : LpProblem)
    (x : gmap (nat * nat) LpVariable)
    (instructors : list instructor) (students : list student) :
  (solve_and_display_results PULP_CBC_CMD model x instructors students
     = Raises KeyError ↔
   ∃ i j, (i < length instructors)%nat ∧ (j < length students)%nat ∧
          x !! (i, j) = None) ∧
  ((∃ results_df assigned unassigned,
      solve_and_display_results PULP_CBC_CMD model x instructors students
        = Returns (results_df, assigned, unassigned)) ↔
   ∀ i j, (i < length instructors)%nat → (j < length students)%nat →
          is_Some (x !! (i, j))).
Proof.
  unfold solve_and_display_results.
  destruct (loops_outcome instructors students x (PULP_CBC_CMD model) ([], 0))
    as [[Hall [[results assigned] ->]]|[(i & j & Hi & Hj & Hnone) ->]].
  - rewrite Returns_bind. split.
    + split; [done|]. intros (i & j & Hi & Hj & Hnone).
      destruct (Hall i j Hi Hj) as [v Hv]. by rewrite Hv in Hnone.
    + split; [done|]. intros _. by eexists _, _, _.
  - split.
    + split; [|done]. intros _. by exists i, j.
    + split; [by intros (? & ? & ? & ?)|].
      intros Hall. destruct (Hall i j Hi Hj) as [v Hv]. by rewrite Hv in Hnone.
Qed.

(** ** The variables of the problem *)

(** X8. The dictionary returned by [create_optimization_model] holds exactly
    one entry per pair of an instructor position and a student position, a
    binary variable named after the pair; and the variables that occur in
    the problem are these very variables. *)
Theorem one_binary_variable_per_pair
    instructors students aircraft_count model x :
  create_optimization_model instructors students aircraft_count
    = Returns (model, x) →
  (∀ i j v, x !! (i, j) = Some v ↔
     (i < length instructors)%nat ∧ (j < length students)%nat ∧
     v = {| name := (i, j); lowBound := 0; upBound := 1; cat := LpInteger |}) ∧
  (∀ v, v ∈ variables model ↔ ∃ i j, x !! (i, j) = Some v).
Proof.
  intros Hm.
  assert (∀ i j v, x !! (i, j) = Some v ↔
            (i < length instructors)%nat ∧ (j < length students)%nat ∧
            v = Binary (i, j)) as Hx.
  { intros i j v. split.
    - rewrite (model_x _ _ _ _ _ Hm).
      intros (Hi & Hj & ->)%decision_variables_dom.
      by apply elem_of_range in Hi, Hj.
    - intros (Hi & Hj & ->). by apply (model_x_lookup _ _ _ _ _ Hm). }
  split; [done|]. intros v. rewrite (model_variables _ _ _ _ _ Hm). split.
  - intros (i & j & Hi%elem_of_range & Hj%elem_of_range & ->).
    exists i, j. by apply Hx.
  - intros (i & j & (Hi & Hj & ->)%Hx). exists i, j. by rewrite !elem_of_range.
Qed.

Lemma one_binary_variable_per_pair_witness :
  ∃ model x,
    create_optimization_model demo_instructors demo_students 3
      = Returns (model, x) ∧
    size x = 9%nat ∧
    (∀ i j v, x !! (i, j) = Some v ↔
       (i < 3)%nat ∧ (j < 3)%nat ∧
       v = {| name := (i, j); lowBound := 0; upBound := 1; cat := LpInteger |}) ∧
    (∀ v, v ∈ variables model ↔ ∃ i j, x !! (i, j) = Some v).
Proof.
  eexists _, _. refine (conj _ (conj _ _)).
  - reflexivity.
  - by vm_compute.
  - exact (one_binary_variable_per_pair demo_instructors demo_students 3
             _ _ eq_refl).
Defined.

(** ** Problems that can be solved *)

(** X9. The problem built has a feasible valuation, and then an optimum,
    exactly when [aircraft_count] is not negative; the valuation that assigns
    nobody is then feasible. *)
Theorem solvable_iff_capacity_not_negative
    instructors students aircraft_count model x :
  create_optimization_model instructors students aircraft_count
    = Returns (model, x) →
  ((∃ sol, feasible model sol) ↔ 0 ≤ aircraft_count) ∧
  ((∃ sol, LpStatusOptimal model sol) ↔ 0 ≤ aircraft_count) ∧
  (0 ≤ aircraft_count → feasible model nobody).
Proof.
  intros Hm.
  assert ((∃ sol, feasible model sol) → 0 ≤ aircraft_count) as Hfeasible.
  { intros [sol Hsol]. destruct (Z.le_gt_cases 0 aircraft_count); [done|].
    destruct (negative_capacity_infeasible _ _ _ _ _ Hm ltac:(lia) sol Hsol). }
  assert (0 ≤ aircraft_count → feasible model nobody) as Hnobody.
  { intros Hac. by apply (model_feasible _ _ _ _ _ Hm), admissible_nobody. }
  split_and!; [split|split|done].
  - done.
  - intros Hac. exists nobody. by apply Hnobody.
  - intros [sol [Hsol _]]. apply Hfeasible. by exists sol.
  - by apply (optimum_exists _ _ _ _ _ Hm).
Qed.

Lemma solvable_iff_capacity_not_negative_witness :
  ∃ model x,
    create_optimization_model demo_instructors demo_students (-1)
      = Returns (model, x) ∧
    (∀ sol, ¬ feasible model sol) ∧
    (((∃ sol, feasible model sol) ↔ 0 ≤ -1) ∧
     ((∃ sol, LpStatusOptimal model sol) ↔ 0 ≤ -1) ∧
     (0 ≤ -1 → feasible model nobody)).
Proof.
  pose proof (solvable_iff_capacity_not_negative demo_instructors demo_students
                (-1) _ _ eq_refl) as H.
  eexists _, _. refine (conj eq_refl (conj _ H)).
  intros sol Hsol. destruct H as [[H _] _].
  assert (0 ≤ -1) by (apply H; by exists sol). lia.
Defined.

(** ** The form as loaded *)

Lemma untouched_qualified i :
  course (form_student untouched i)
    ∈ qualifications (form_instructor untouched i).
Proof.
  rewrite form_qualifications_elem.
  unfold form_student, st_radio, st_checkbox, untouched.
  cbn [course ticked chosen default from_option id].
  pose proof (Nat.div_mod_eq i 3) as Hi.
  pose proof (Nat.mod_upper_bound i 3 ltac:(lia)) as Hlt.
  destruct (i mod 3)%nat as [|[|[|r]]] eqn:E; [| | |lia].
  - left. done.
  - right; left. split; [done|]. apply bool_decide_eq_true_2. lia.
  - right; right. split; [done|]. apply bool_decide_eq_true_2. lia.
Qed.

Lemma elem_of_diagonal_pairs k i j :
  (i, j) ∈ diagonal_pairs k ↔ i = j ∧ (i < k)%nat.
Proof.
  unfold diagonal_pairs. rewrite list_elem_of_fmap. split.
  - intros (i' & [= -> ->] & Hi%elem_of_seq). split; [done|lia].
  - intros [-> Hi]. exists j. split; [done|]. apply elem_of_seq. lia.
Qed.

Lemma valid_assignment_diagonal n m aircraft_count k :
  (k ≤ n)%nat → (k ≤ m)%nat → Z.of_nat k ≤ aircraft_count →
  valid_assignment (form_instructor untouched <$> range n)
    (form_student untouched <$> range m) aircraft_count (diagonal_pairs k).
Proof.
  intros Hn Hm Hac. split.
  - apply NoDup_fmap_2; [by intros i i' [= ->]|apply NoDup_seq].
  - intros i j [-> Hj]%elem_of_diagonal_pairs. rewrite !length_fmap_range. lia.
  - by intros i j j' [<- _]%elem_of_diagonal_pairs [<- _]%elem_of_diagonal_pairs.
  - by intros i i' j [-> _]%elem_of_diagonal_pairs [-> _]%elem_of_diagonal_pairs.
  - intros i j [-> Hj]%elem_of_diagonal_pairs.
    rewrite !lookup_total_fmap_range by lia. apply untouched_qualified.
  - unfold diagonal_pairs. by rewrite length_fmap, length_seq.
Qed.

(** X10. On the form as loaded (no widget touched), whatever the three
    counts, every optimal solve assigns exactly
    min(instructor_count, student_count, aircraft_count) students: the
    default qualifications and courses never restrict the schedule. *)
Theorem untouched_form_assigns_minimum
    PULP_CBC_CMD aircraft_count instructor_count student_count model x
    results_df assigned unassigned :
  0 ≤ aircraft_count → 0 ≤ instructor_count → 0 ≤ student_count →
  create_optimization_model (instructor_form untouched instructor_count).1
    (student_form untouched student_count).1 aircraft_count
    = Returns (model, x) →
  LpStatusOptimal model (PULP_CBC_CMD model) →
  solve_and_display_results PULP_CBC_CMD model x
    (instructor_form untouched instructor_count).1
    (student_form untouched student_count).1
    = Returns (results_df, assigned, unassigned) →
  assigned = Z.min (Z.min instructor_count student_count) aircraft_count.
Proof.
  rewrite instructor_form_records, student_form_records.
  intros Hac Hic Hsc Hm Hopt Hres.
  set (n := Z.to_nat instructor_count) in *.
  set (m := Z.to_nat student_count) in *.
  set (k := Z.to_nat (Z.min (Z.min instructor_count student_count)
                        aircraft_count)).
  pose proof (pipeline_admissible _ _ _ _ _ _ Hm Hopt) as Hadm.
  pose proof (adm_total_le_instructors _ _ _ _ Hadm) as Hle1.
  pose proof (adm_total_le_students _ _ _ _ Hadm) as Hle2.
  pose proof (adm_total_le_aircraft _ _ _ _ Hadm) as Hle3.
  rewrite <- (pipeline_assigned_total _ _ _ _ _ _ Hm _ _ _ Hres Hopt) in Hle1, Hle2, Hle3.
  rewrite length_fmap_range in Hle1. rewrite length_fmap_range in Hle2.
  assert (valid_assignment (form_instructor untouched <$> range n)
            (form_student untouched <$> range m) aircraft_count
            (diagonal_pairs k)) as Hvalid
    by (apply valid_assignment_diagonal; lia).
  pose proof (pipeline_maximum _ _ _ _ _ _ Hm _ _ _ Hres Hopt _
                (admissible_indicator _ _ _ _ Hvalid)) as Hge.
  rewrite (total_indicator _ _ _ _ Hvalid) in Hge.
  unfold diagonal_pairs in Hge. rewrite length_fmap, length_seq in Hge. lia.
Qed.

Lemma untouched_form_assigns_minimum_witness :
  ∃ model x results_df,
    0 ≤ 3 ∧ 0 ≤ 3 ∧ 0 ≤ 5 ∧
    create_optimization_model (instructor_form untouched 3).1
      (student_form untouched 5).1 3 = Returns (model, x) ∧
    LpStatusOptimal model diagonal ∧
    solve_and_display_results (λ _, diagonal) model x
      (instructor_form untouched 3).1 (student_form untouched 5).1
      = Returns (results_df, 3, 2) ∧
    3 = Z.min (Z.min 3 5) 3.
Proof.
  assert (∀ model x,
            create_optimization_model (instructor_form untouched 3).1
              (student_form untouched 5).1 3 = Returns (model, x) →
            LpStatusOptimal model diagonal) as Hopt.
  { intros model x Hm. eapply optimal_at_ceiling; [exact Hm| |by vm_compute].
    apply admissible_check_correct, (bool_decide_unpack _). by vm_compute. }
  eexists _, _, _.
  refine (conj _ (conj _ (conj _ (conj _ (conj _ (conj _ _)))))).
  - lia.
  - lia.
  - lia.
  - reflexivity.
  - by eapply Hopt.
  - by vm_compute.
  - eapply (untouched_form_assigns_minimum (λ _, diagonal) 3 3 5); try lia.
    + reflexivity.
    + by eapply Hopt.
    + by vm_compute.
Defined.

(** ** The order of the rows *)

Lemma StronglySorted_seq_lt start n : StronglySorted lt (seq start n).
Proof.
  revert start. induction n as [|n IH]; intros start; simpl; constructor.
  - apply IH.
  - apply Forall_forall. intros i Hi%elem_of_seq. lia.
Qed.

Lemma rows_of_instructor_sorted sol instructors students J i :
  StronglySorted lt J →
  StronglySorted row_before (rows_of_instructor sol instructors students J i).
Proof.
  induction 1 as [|j J HJ IH Hj]; [constructor|].
  unfold rows_of_instructor. rewrite bind_cons.
  fold (rows_of_instructor sol instructors students J i).
  apply StronglySorted_app_2; [|destruct (bool_decide _); repeat constructor|done].
  intros r r' Hr (j' & Hj' & _ & ->)%elem_of_rows_of_instructor.
  destruct (bool_decide _); [|by apply elem_of_nil in Hr].
  apply list_elem_of_singleton in Hr as ->.
  rewrite Forall_forall in Hj. specialize (Hj j' Hj').
  right. simpl. lia.
Qed.

Lemma assigned_rows_sorted sol instructors students I J :
  StronglySorted lt I → StronglySorted lt J →
  StronglySorted row_before (assigned_rows sol instructors students I J).
Proof.
  intros HI HJ. induction HI as [|i I HI IH Hi]; [constructor|].
  unfold assigned_rows. rewrite bind_cons.
  fold (assigned_rows sol instructors students I J).
  apply StronglySorted_app_2; [|by apply rows_of_instructor_sorted|done].
  intros r r' (j & _ & _ & ->)%elem_of_rows_of_instructor
    (i' & j' & Hi' & _ & _ & ->)%elem_of_assigned_rows.
  rewrite Forall_forall in Hi. specialize (Hi i' Hi').
  left. simpl. lia.
Qed.

(** X11. Whatever values the solver leaves, the rows returned by
    [solve_and_display_results] come in increasing order of instructor, and
    for one instructor in increasing order of student; so no row is returned
    twice. *)
Theorem results_in_order
    instructors students aircraft_count PULP_CBC_CMD model x
    results_df assigned unassigned :
  create_optimization_model instructors students aircraft_count
    = Returns (model, x) →
  solve_and_display_results PULP_CBC_CMD model x instructors students
    = Returns (results_df, assigned, unassigned) →
  StronglySorted row_before results_df ∧ NoDup results_df.
Proof.
  intros Hm Hres. rewrite (pipeline_rows _ _ _ _ _ _ Hm _ _ _ Hres). split.
  - apply assigned_rows_sorted; apply StronglySorted_seq_lt.
  - apply NoDup_assigned_rows; apply NoDup_range.
Qed.

Lemma results_in_order_witness :
  ∃ model x results_df,
    create_optimization_model demo_instructors demo_students 3
      = Returns (model, x) ∧
    solve_and_display_results (λ _, (λ _, 1)) model x
      demo_instructors demo_students = Returns (results_df, 9, -6) ∧
    (Instructor_ID <$> results_df) = [1; 1; 1; 2; 2; 2; 3; 3; 3] ∧
    (Student_ID <$> results_df) = [1; 2; 3; 1; 2; 3; 1; 2; 3] ∧
    (StronglySorted row_before results_df ∧ NoDup results_df).
Proof.
  eexists _, _, _. refine (conj _ (conj _ (conj _ (conj _ _)))).
  - reflexivity.
  - by vm_compute.
  - by vm_compute.
  - by vm_compute.
  - eapply (results_in_order demo_instructors demo_students 3 (λ _, (λ _, 1))).
    + reflexivity.
    + by vm_compute.
Defined.

(** ** More instructors, more students *)

Section more_entries.
Variables (instructors more_instructors : list instructor).
Variables (students more_students : list student).
Variables (aircraft_count : Z) (sol : valuation).
Hypothesis Hadm : admissible instructors students aircraft_count sol.

Let n := length instructors.
Let m := length students.

Lemma restrict_inside i j :
  (i < n)%nat → (j < m)%nat → restrict n m sol (i, j) = sol (i, j).
Proof. intros Hi Hj. unfold restrict. by rewrite bool_decide_eq_true_2. Qed.

Lemma restrict_outside i j :
  (n ≤ i)%nat ∨ (m ≤ j)%nat → restrict n m sol (i, j) = 0.
Proof. intros H. unfold restrict. rewrite bool_decide_eq_false_2; [done|lia]. Qed.

Lemma row_sum_restrict i d :
  row_sum (restrict n m sol) (range (m + d)) i =
  if bool_decide (i < n)%nat then row_sum sol (range m) i else 0.
Proof.
  unfold row_sum, range. rewrite seq_app, Zsum_app. simpl.
  rewrite (Zsum_zero _ (seq m d))
    by (intros j Hj%elem_of_seq; apply restrict_outside; lia).
  case_bool_decide.
  - rewrite Z.add_0_r. apply Zsum_ext. intros j Hj%elem_of_seq.
    apply restrict_inside; lia.
  - rewrite Zsum_zero; [done|]. intros j _. apply restrict_outside. lia.
Qed.

Lemma column_sum_restrict j d :
  column_sum (restrict n m sol) (range (n + d)) j =
  if bool_decide (j < m)%nat then column_sum sol (range n) j else 0.
Proof.
  unfold column_sum, range. rewrite seq_app, Zsum_app. simpl.
  rewrite (Zsum_zero _ (seq n d))
    by (intros i Hi%elem_of_seq; apply restrict_outside; lia).
  case_bool_decide.
  - rewrite Z.add_0_r. apply Zsum_ext. intros i Hi%elem_of_seq.
    apply restrict_inside; lia.
  - rewrite Zsum_zero; [done|]. intros i _. apply restrict_outside. lia.
Qed.

Lemma total_restrict d d' :
  total (restrict n m sol) (range (n + d)) (range (m + d')) =
  total sol (range n) (range m).
Proof.
  unfold total. change (range (n + d)) with (seq 0 (n + d)).
  rewrite (seq_app n d 0), Zsum_app. simpl.
  rewrite (Zsum_zero _ (seq n d)).
  - rewrite Z.add_0_r. apply Zsum_ext. intros i Hi%elem_of_seq.
    rewrite row_sum_restrict, bool_decide_eq_true_2; [done|lia].
  - intros i Hi%elem_of_seq.
    rewrite row_sum_restrict, bool_decide_eq_false_2; [done|lia].
Qed.

Lemma admissible_more_entries :
  admissible (instructors ++ more_instructors) (students ++ more_students)
    aircraft_count (restrict n m sol).
Proof.
  split; rewrite ?length_app; fold n m.
  - intros i j _ _. unfold restrict. case_bool_decide as H; [|lia].
    destruct H. by apply Hadm.
  - intros i _. rewrite row_sum_restrict. case_bool_decide; [|lia].
    by apply Hadm.
  - intros j _. rewrite column_sum_restrict. case_bool_decide; [|lia].
    by apply Hadm.
  - intros i j _ _ Hex. unfold restrict. case_bool_decide as H; [|done].
    destruct H as [Hi Hj]. apply (adm_qualification _ _ _ _ Hadm); try done.
    by rewrite !lookup_total_app_l in Hex.
  - rewrite total_restrict. apply Hadm.
Qed.
End more_entries.

(** X12. Appending instructors or students to the lists never decreases the
    assigned count of an optimal solve, the capacity being the same. *)
Theorem assigned_count_monotone_in_entries
    instructors more_instructors students more_students aircraft_count
    (PULP_CBC_CMD PULP_CBC_CMD' : solver) model x model' x'
    results_df assigned unassigned results_df' assigned' unassigned' :
  create_optimization_model instructors students aircraft_count
    = Returns (model, x) →
  create_optimization_model (instructors ++ more_instructors)
    (students ++ more_students) aircraft_count = Returns (model', x') →
  LpStatusOptimal model (PULP_CBC_CMD model) →
  LpStatusOptimal model' (PULP_CBC_CMD' model') →
  solve_and_display_results PULP_CBC_CMD model x instructors students
    = Returns (results_df, assigned, unassigned) →
  solve_and_display_results PULP_CBC_CMD' model' x'
    (instructors ++ more_instructors) (students ++ more_students)
    = Returns (results_df', assigned', unassigned') →
  assigned ≤ assigned'.
Proof.
  intros Hm Hm' Hopt Hopt' Hres Hres'.
  pose proof (pipeline_admissible _ _ _ _ _ _ Hm Hopt) as Hadm.
  rewrite (pipeline_assigned_total _ _ _ _ _ _ Hm _ _ _ Hres Hopt).
  rewrite <- (total_restrict instructors students (PULP_CBC_CMD model)
                (length more_instructors) (length more_students)).
  rewrite <- !length_app.
  apply (pipeline_maximum _ _ _ _ _ _ Hm' _ _ _ Hres' Hopt').
  by apply admissible_more_entries.
Qed.

Lemma assigned_count_monotone_in_entries_witness :
  let two_instructors := [mkInstructor 1 [1]; mkInstructor 2 [1; 2]] in
  let third_instructor := [mkInstructor 3 [1; 2; 3]] in
  ∃ model x model' x' results_df results_df',
    create_optimization_model two_instructors demo_students 3
      = Returns (model, x) ∧
    create_optimization_model (two_instructors ++ third_instructor)
      (demo_students ++ []) 3 = Returns (model', x') ∧
    LpStatusOptimal model first_two ∧
    LpStatusOptimal model' diagonal ∧
    solve_and_display_results (λ _, first_two) model x
      two_instructors demo_students = Returns (results_df, 2, 1) ∧
    solve_and_display_results (λ _, diagonal) model' x'
      (two_instructors ++ third_instructor) (demo_students ++ [])
      = Returns (results_df', 3, 0) ∧
    2 ≤ 3.
Proof.
  intros two_instructors third_instructor.
  assert (admissible two_instructors demo_students 3 first_two) as Hadm
    by (apply admissible_check_correct, (bool_decide_unpack _); by vm_compute).
  eexists _, _, _, _, _, _.
  refine (conj _ (conj _ (conj _ (conj _ (conj _ (conj _ _)))))).
  - reflexivity.
  - reflexivity.
  - eapply optimal_at_ceiling; [reflexivity|exact Hadm|by vm_compute].
  - by eapply demo_optimal.
  - by vm_compute.
  - by vm_compute.
  - eapply (assigned_count_monotone_in_entries two_instructors third_instructor
              demo_students [] 3 (λ _, first_two) (λ _, diagonal)).
    + reflexivity.
    + reflexivity.
    + eapply optimal_at_ceiling; [reflexivity|exact Hadm|by vm_compute].
    + by eapply demo_optimal.
    + by vm_compute.
    + by vm_compute.
Defined.

(** ** From the form to the results *)

(** X13. On the lists the form builds, with every radio on one of its
    positions, and after a solve that ends with an optimum: the five
    invariants hold, the assigned count is the largest size of a valid
    assignment, every row reports the [id] fields of the two records it
    pairs, with the student's course, and the block raises nothing. *)
Theorem form_schedule_sound
    PULP_CBC_CMD user aircraft_count instructor_count student_count model x
    results_df assigned unassigned :
  valid_choices user →
  let instructors := (instructor_form user instructor_count).1 in
  let students := (student_form user student_count).1 in
  create_optimization_model instructors students aircraft_count
    = Returns (model, x) →
  LpStatusOptimal model (PULP_CBC_CMD model) →
  solve_and_display_results PULP_CBC_CMD model x instructors students
    = Returns (results_df, assigned, unassigned) →
  assignment_invariants instructors students aircraft_count x
    (PULP_CBC_CMD model) results_df ∧
  maximum_cardinality instructors students aircraft_count assigned ∧
  (∀ r, r ∈ results_df →
     ∃ i j ins st,
       instructors !! i = Some ins ∧ students !! j = Some st ∧
       PULP_CBC_CMD model (i, j) = 1 ∧
       Instructor_ID r = instructor_id ins ∧
       Instructor_Qualifications r = py_str_list (qualifications ins) ∧
       Student_ID r = student_id st ∧
       Student_Course r = course st) ∧
  ∃ out,
    run_optimization_on_form PULP_CBC_CMD user aircraft_count
      instructor_count student_count = Returns out.
Proof.
  intros Hvalid instructors students Hm Hopt Hres.
  assert (Forall (λ st, course st ∈ course_ids) students) as Hcourses.
  { unfold students. rewrite student_form_records.
    apply Forall_fmap, Forall_forall. intros i _. by apply form_course_listed. }
  pose proof (pipeline_admissible _ _ _ _ _ _ Hm Hopt) as Hadm.
  pose proof (pipeline_rows _ _ _ _ _ _ Hm _ _ _ Hres) as Hrows.
  pose proof (pipeline_assigned _ _ _ _ _ _ Hm _ _ _ Hres) as Hassigned.
  split_and!.
  - by apply (admissible_invariants instructors students aircraft_count model x
                PULP_CBC_CMD Hcourses Hm Hadm results_df assigned unassigned).
  - split.
    + exists (pairs_of results_df). split.
      * by apply (admissible_valid_pairs instructors students aircraft_count
                    model x PULP_CBC_CMD Hcourses Hm Hadm results_df assigned
                    unassigned).
      * unfold pairs_of. by rewrite length_fmap.
    + intros M HM.
      rewrite <- (total_indicator instructors students aircraft_count M HM).
      apply (pipeline_maximum _ _ _ _ _ _ Hm _ _ _ Hres Hopt).
      by apply admissible_indicator.
  - rewrite Hrows.
    intros r (i & j & Hi%elem_of_range & Hj%elem_of_range & Hs & ->)%elem_of_assigned_rows.
    exists i, j, (instructors !!! i), (students !!! j).
    split_and!; try done; try by apply list_lookup_lookup_total_lt.
    + unfold instructors in *. rewrite instructor_form_records in *.
      rewrite length_fmap_range in Hi. by rewrite lookup_total_fmap_range.
    + unfold students in *. rewrite student_form_records in *.
      rewrite length_fmap_range in Hj. by rewrite lookup_total_fmap_range.
  - unfold run_optimization_on_form. fold instructors students.
    rewrite (run_optimization_cases _ _ _ _ _ _ _ _ Hm). cbv zeta.
    rewrite <- Hrows, <- Hassigned.
    pose proof (adm_total_le_instructors _ _ _ _ Hadm) as Hn.
    pose proof (adm_total_le_aircraft _ _ _ _ Hadm) as Ha.
    rewrite <- (pipeline_assigned_total _ _ _ _ _ _ Hm _ _ _ Hres Hopt) in Hn, Ha.
    unfold instructors in Hn. rewrite instructor_form_records in Hn.
    rewrite length_fmap_range in Hn.
    case_bool_decide; [|by eexists].
    rewrite !bool_decide_eq_false_2 by lia. by eexists.
Qed.

Lemma form_schedule_sound_witness :
  ∃ model x results_df,
    valid_choices some_user ∧
    (instructor_form some_user 3).1
      = [mkInstructor 1 [1; 3]; mkInstructor 2 [1; 2]; mkInstructor 3 [1; 2; 3]] ∧
    create_optimization_model (instructor_form some_user 3).1
      (student_form some_user 3).1 3 = Returns (model, x) ∧
    LpStatusOptimal model some_user_schedule ∧
    solve_and_display_results (λ _, some_user_schedule) model x
      (instructor_form some_user 3).1 (student_form some_user 3).1
      = Returns (results_df, 3, 0) ∧
    (assignment_invariants (instructor_form some_user 3).1
       (student_form some_user 3).1 3 x some_user_schedule results_df ∧
     maximum_cardinality (instructor_form some_user 3).1
       (student_form some_user 3).1 3 3 ∧
     (∀ r, r ∈ results_df →
        ∃ i j ins st,
          (instructor_form some_user 3).1 !! i = Some ins ∧
          (student_form some_user 3).1 !! j = Some st ∧
          some_user_schedule (i, j) = 1 ∧
          Instructor_ID r = instructor_id ins ∧
          Instructor_Qualifications r = py_str_list (qualifications ins) ∧
          Student_ID r = student_id st ∧
          Student_Course r = course st) ∧
     ∃ out,
       run_optimization_on_form (λ _, some_user_schedule) some_user 3 3 3
         = Returns out).
Proof.
  assert (∀ model x,
            create_optimization_model (instructor_form some_user 3).1
              (student_form some_user 3).1 3 = Returns (model, x) →
            LpStatusOptimal model some_user_schedule) as Hopt.
  { intros model x Hm. eapply optimal_at_ceiling; [exact Hm| |by vm_compute].
    apply admissible_check_correct, (bool_decide_unpack _). by vm_compute. }
  eexists _, _, _.
  refine (conj some_user_valid (conj _ (conj _ (conj _ (conj _ _))))).
  - by vm_compute.
  - reflexivity.
  - by eapply Hopt.
  - by vm_compute.
  - eapply (form_schedule_sound (λ _, some_user_schedule) some_user 3 3 3).
    + exact some_user_valid.
    + reflexivity.
    + by eapply Hopt.
    + by vm_compute.
Defined.

(** ** The size of the problem *)

Lemma length_course_loop (courses qualified : list Z) (k : Z) (c : LpConstraint) :
  NoDup courses →
  Z.of_nat (length (a ← courses;
                    if bool_decide (a ∉ qualified) && bool_decide (a = k)
                    then [c] else [])) =
  if bool_decide (k ∈ courses ∧ k ∉ qualified) then 1 else 0.
Proof.
  induction 1 as [|a l Hnotin Hnd IH]; [by rewrite bool_decide_eq_false_2
    by (intros [[]%elem_of_nil _])|].
  rewrite bind_cons, length_app, Nat2Z.inj_add, IH.
  assert (a ≠ k → (k ∈ a :: l ∧ k ∉ qualified) ↔ (k ∈ l ∧ k ∉ qualified))
    as Hother.
  { intros Hk. rewrite elem_of_cons. split; [intros [[?|?] ?]|intros [? ?]];
      try done. split; [by right|done]. }
  destruct (bool_decide_reflect (a ∉ qualified)) as [Ha|Ha];
    destruct (bool_decide_reflect (a = k)) as [->|Hk]; simpl.
  - rewrite (bool_decide_eq_false_2 (k ∈ l ∧ _)) by (by intros [? _]).
    rewrite bool_decide_eq_true_2; [done|]. split; [apply list_elem_of_here|done].
  - by rewrite (bool_decide_ext _ _ (Hother Hk)).
  - rewrite !bool_decide_eq_false_2; [done| |]; by intros [_ ?].
  - by rewrite (bool_decide_ext _ _ (Hother Hk)).
Qed.

(** X14. The problem built has one objective term, of coefficient 1, per
    pair of positions, and its constraints are, in this order: one per
    instructor, one per student, one equality per pair excluded by the
    qualification test and none for the other pairs, and the aircraft
    constraint. *)
Theorem size_of_the_problem instructors students aircraft_count model x :
  create_optimization_model instructors students aircraft_count
    = Returns (model, x) →
  length (objective model) = (length instructors * length students)%nat ∧
  Forall (λ term, term.2 = 1) (objective model) ∧
  Z.of_nat (length (constraints model)) =
    Z.of_nat (length instructors) + Z.of_nat (length students)
    + excluded_count instructors students + 1 ∧
  last (constraints model)
    = Some (objective model <=! aircraft_count).
Proof.
  intros Hm. rewrite (model_eq _ _ _ _ _ Hm).
  cbn [objective constraints]. split_and!.
  - unfold lpSum. rewrite length_map. apply Nat2Z.inj.
    rewrite length_bind_sum, (Zsum_ext _ (λ _, Z.of_nat (length students))).
    + rewrite Zsum_const, length_range. lia.
    + intros i _. rewrite length_bind_sum, (Zsum_ext _ (λ _, 1)) by done.
      rewrite Zsum_const, length_range. lia.
  - unfold lpSum. apply Forall_forall. intros term Hterm.
    apply list_elem_of_In, in_map_iff in Hterm as (v & <- & _). done.
  - rewrite !length_app, !length_fmap, !length_range, !Nat2Z.inj_add.
    rewrite length_bind_sum. unfold excluded_count. cbn [length].
    rewrite (Zsum_ext _ (λ i, Zsum (λ j,
      if bool_decide (excluded (instructors !!! i) (students !!! j))
      then 1 else 0) (range (length students)))); [lia|].
    intros i _. rewrite length_bind_sum. apply Zsum_ext. intros j _.
    rewrite (length_course_loop course_ids); [done|].
    unfold course_ids. apply (bool_decide_unpack _). by vm_compute.
  - by rewrite !app_assoc, last_snoc.
Qed.

Lemma size_of_the_problem_witness :
  ∃ model x,
    create_optimization_model demo_instructors demo_students 3
      = Returns (model, x) ∧
    excluded_count demo_instructors demo_students = 3 ∧
    (length (objective model) = (3 * 3)%nat ∧
     Forall (λ term, term.2 = 1) (objective model) ∧
     Z.of_nat (length (constraints model)) = 3 + 3 + 3 + 1 ∧
     last (constraints model) = Some (objective model <=! 3)).
Proof.
  eexists _, _. refine (conj eq_refl (conj _ _)).
  - by vm_compute.
  - exact (size_of_the_problem demo_instructors demo_students 3 _ _ eq_refl).
Defined.

(** ** Aircraft beyond the number of instructors or students *)

Lemma admissible_spare_aircraft instructors students aircraft_count
    aircraft_count' sol :
  Z.min (Z.of_nat (length instructors)) (Z.of_nat (length students))
    ≤ aircraft_count' →
  admissible instructors students aircraft_count sol →
  admissible instructors students aircraft_count' sol.
Proof.
  intros Hmin Hadm.
  pose proof (adm_total_le_instructors _ _ _ _ Hadm).
  pose proof (adm_total_le_students _ _ _ _ Hadm).
  destruct Hadm as [Hb Hr Hc Hq Ha]. split; try done. lia.
Qed.

(** X15. Aircraft beyond the smaller of the number of instructors and the
    number of students change nothing: two optimal solves whose capacities
    are both at least that number return the same assigned count. *)
Theorem spare_aircraft_change_nothing
    instructors students aircraft_count aircraft_count'
    (PULP_CBC_CMD PULP_CBC_CMD' : solver) model x model' x'
    results_df assigned unassigned results_df' assigned' unassigned' :
  Z.min (Z.of_nat (length instructors)) (Z.of_nat (length students))
    ≤ aircraft_count →
  Z.min (Z.of_nat (length instructors)) (Z.of_nat (length students))
    ≤ aircraft_count' →
  create_optimization_model instructors students aircraft_count
    = Returns (model, x) →
  create_optimization_model instructors students aircraft_count'
    = Returns (model', x') →
  LpStatusOptimal model (PULP_CBC_CMD model) →
  LpStatusOptimal model' (PULP_CBC_CMD' model') →
  solve_and_display_results PULP_CBC_CMD model x instructors students
    = Returns (results_df, assigned, unassigned) →
  solve_and_display_results PULP_CBC_CMD' model' x' instructors students
    = Returns (results_df', assigned', unassigned') →
  assigned = assigned'.
Proof.
  intros Hmin Hmin' Hm Hm' Hopt Hopt' Hres Hres'.
  pose proof (pipeline_admissible _ _ _ _ _ _ Hm Hopt) as Hadm.
  pose proof (pipeline_admissible _ _ _ _ _ _ Hm' Hopt') as Hadm'.
  pose proof (pipeline_maximum _ _ _ _ _ _ Hm _ _ _ Hres Hopt _
                (admissible_spare_aircraft _ _ _ _ _ Hmin Hadm')) as Hle.
  pose proof (pipeline_maximum _ _ _ _ _ _ Hm' _ _ _ Hres' Hopt' _
                (admissible_spare_aircraft _ _ _ _ _ Hmin' Hadm)) as Hle'.
  rewrite <- (pipeline_assigned_total _ _ _ _ _ _ Hm' _ _ _ Hres' Hopt') in Hle.
  rewrite <- (pipeline_assigned_total _ _ _ _ _ _ Hm _ _ _ Hres Hopt) in Hle'.
  lia.
Qed.

Lemma spare_aircraft_change_nothing_witness :
  ∃ model x model' x' results_df results_df',
    Z.min 3 3 ≤ 3 ∧ Z.min 3 3 ≤ 7 ∧
    create_optimization_model demo_instructors demo_students 3
      = Returns (model, x) ∧
    create_optimization_model demo_instructors demo_students 7
      = Returns (model', x') ∧
    LpStatusOptimal model diagonal ∧
    LpStatusOptimal model' diagonal ∧
    solve_and_display_results (λ _, diagonal) model x
      demo_instructors demo_students = Returns (results_df, 3, 0) ∧
    solve_and_display_results (λ _, diagonal) model' x'
      demo_instructors demo_students = Returns (results_df', 3, 0) ∧
    3 = 3.
Proof.
  assert (admissible demo_instructors demo_students 7 diagonal) as Hadm
    by (apply admissible_check_correct, (bool_decide_unpack _); by vm_compute).
  eexists _, _, _, _, _, _.
  refine (conj _ (conj _ (conj _ (conj _ (conj _ (conj _ (conj _ (conj _ _)))))))).
  - by vm_compute.
  - by vm_compute.
  - reflexivity.
  - reflexivity.
  - by eapply demo_optimal.
  - eapply optimal_at_ceiling; [reflexivity|exact Hadm|by vm_compute].
  - by vm_compute.
  - by vm_compute.
  - eapply (spare_aircraft_change_nothing demo_instructors demo_students 3 7
              (λ _, diagonal) (λ _, diagonal)).
    + by vm_compute.
    + by vm_compute.
    + reflexivity.
    + reflexivity.
    + by eapply demo_optimal.
    + eapply optimal_at_ceiling; [reflexivity|exact Hadm|by vm_compute].
    + by vm_compute.
    + by vm_compute.
Defined.
